(** * Note-app: the notes/folders storage hook ([use-note-storage.tsx])

    A shallow embedding of [useNoteStorage]: the note and folder
    collections held in React state, their mirror in [localStorage], and
    the operations the hook returns ([saveNote], [deleteNote],
    [createFolder], [deleteFolder], [getNotesInFolder], [searchNotes],
    [syncNotes], [categorizeNote]); and of the code that calls it: the
    handlers of the page ([pages/Index.tsx]) and the functions of the
    sidebar and of the editor that compute on notes, tags and text.

    Layout: the JavaScript values the hook computes with, the data model,
    the hook's state and operations, the properties stated as definitions,
    and then the lemmas and theorems. *)

From Stdlib Require Import ZArith NArith List Bool String Ascii Lia.
From Stdlib Require Import DecimalString DecimalZ.
Import ListNotations.

Set Implicit Arguments.

(* ================================================================== *)
(** ** JavaScript values *)
(* ================================================================== *)

(** A JavaScript string is a sequence of UTF-16 code units. *)
Definition jsstring := list N.

(** A string literal of the source whose characters are all below U+0100:
    one code unit per character. *)
Definition lit (s : string) : jsstring :=
  map N_of_ascii (list_ascii_of_string s).
Arguments lit s%_string.

(** [a === b] on two strings. *)
Definition str_eqb (a b : jsstring) : bool :=
  if list_eq_dec N.eq_dec a b then true else false.

Definition ostr_eq_dec (a b : option jsstring) : {a = b} + {a <> b}.
Proof. decide equality. apply (list_eq_dec N.eq_dec). Defined.

(** [a === b] where either side may be [undefined]. *)
Definition strict_eq (a b : option jsstring) : bool :=
  if ostr_eq_dec a b then true else false.

(** Truthiness of a possibly-undefined string: [undefined] and the empty
    string are falsy. *)
Definition truthy (s : option jsstring) : bool :=
  match s with
  | Some (_ :: _) => true
  | _ => false
  end.

(** [s || d] for a possibly-undefined string [s]. *)
Definition or_str (s : option jsstring) (d : jsstring) : jsstring :=
  match s with
  | Some (c :: r) => c :: r
  | _ => d
  end.

(** [a || d] for a possibly-undefined array (every array is truthy). *)
Definition or_arr {A} (a : option (list A)) (d : list A) : list A :=
  match a with
  | Some l => l
  | None => d
  end.

(** The class [\s] of regular expressions, which is also what
    [String.prototype.trim] strips: ECMAScript WhiteSpace and
    LineTerminator. *)
Definition isWhiteSpace (c : N) : bool :=
  ((9 <=? c) && (c <=? 13) || (c =? 32) || (c =? 160) || (c =? 5760)
   || (8192 <=? c) && (c <=? 8202)
   || (c =? 8232) || (c =? 8233) || (c =? 8239) || (c =? 8287)
   || (c =? 12288) || (c =? 65279))%N.

Fixpoint trimStart (s : jsstring) : jsstring :=
  match s with
  | c :: s' => if isWhiteSpace c then trimStart s' else s
  | [] => []
  end.

(** [s.trim()] *)
Definition trim (s : jsstring) : jsstring :=
  rev (trimStart (rev (trimStart s))).

Fixpoint startsWith (s t : jsstring) {struct t} : bool :=
  match t, s with
  | [], _ => true
  | _ :: _, [] => false
  | d :: t', c :: s' => (c =? d)%N && startsWith s' t'
  end.

(** [s.includes(t)] *)
Fixpoint includes (s t : jsstring) : bool :=
  startsWith s t
  || match s with
     | [] => false
     | _ :: s' => includes s' t
     end.

(** [s.split(/\s+/)]: the pieces between maximal runs of white space.
    [sep] says that the scan is inside a run of white space, [cur] is the
    piece collected since the last run.  A leading or trailing run yields
    an empty piece, and the empty string yields one empty piece. *)
Fixpoint split_from (sep : bool) (cur s : jsstring) : list jsstring :=
  match s with
  | [] => [cur]
  | c :: s' =>
      if isWhiteSpace c
      then if sep then split_from true cur s'
           else cur :: split_from true [] s'
      else split_from false (cur ++ [c]) s'
  end.

Definition split_ws (s : jsstring) : list jsstring := split_from false [] s.

(** [n.toString()] for an integral number: decimal digits, with a minus
    sign when negative. *)
Definition number_toString (n : Z) : jsstring :=
  lit (NilEmpty.string_of_int (Z.to_int n)).

(** [String.prototype.toLowerCase] is the engine's Unicode case mapping.
    It is taken as given, with the two facts about it that are used: it
    maps the empty string to itself, and on a string of ASCII characters
    it lowers the letters [A]-[Z] and keeps the rest. *)
Definition isAscii (c : N) : bool := (c <? 128)%N.

Definition asciiLower (c : N) : N :=
  if ((65 <=? c) && (c <=? 90))%N then (c + 32)%N else c.

Class JsRuntime := {
  toLowerCase : jsstring -> jsstring;
  toLowerCase_empty : toLowerCase [] = [];
  toLowerCase_ascii :
    forall s, forallb isAscii s = true -> toLowerCase s = map asciiLower s
}.

(** A [Date]: a time value in milliseconds since the epoch, or the
    invalid date. *)
Inductive Date : Type :=
| Time (ms : Z)
| InvalidDate.

(** [a >= b] on dates, either of which may be [undefined]: both are
    converted to numbers, and a comparison with [NaN] is false. *)
Definition date_ge (a b : option Date) : bool :=
  match a, b with
  | Some (Time x), Some (Time y) => (y <=? x)%Z
  | _, _ => false
  end.

(** A call either returns or throws a [TypeError] (reading a property of
    [undefined]). *)
Inductive result (A : Type) : Type :=
| Ok (a : A)
| TypeError.
Arguments Ok {A} a.
Arguments TypeError {A}.

Definition bind {A B} (r : result A) (k : A -> result B) : result B :=
  match r with
  | Ok a => k a
  | TypeError => TypeError
  end.

Notation "x <- r ;; k" := (bind r (fun x => k))
  (at level 61, r at next level, right associativity).

(** Reading a property and then calling a method on it. *)
Definition deref {A} (o : option A) : result A :=
  match o with
  | Some a => Ok a
  | None => TypeError
  end.

(** [Array.prototype.filter] with a callback that may throw. *)
Fixpoint filterM {A} (p : A -> result bool) (l : list A) : result (list A) :=
  match l with
  | [] => Ok []
  | x :: l' =>
      b <- p x ;;
      r <- filterM p l' ;;
      Ok (if b then x :: r else r)
  end.

(* ================================================================== *)
(** ** Data model *)
(* ================================================================== *)

(** [interface Note].  Types are erased at run time and the update path of
    [saveNote] stores [{...noteData, ...} as Note] for a [Partial<Note>],
    so an object of the collection holds whichever properties its writer
    gave it: every property may be [undefined].  [Note.well_typed] says
    that an object has the properties the interface requires. *)
Module Note.
Record t : Type := mk {
  id : option jsstring;
  title : option jsstring;
  content : option jsstring;
  tags : option (list jsstring);
  folder : option jsstring;
  createdAt : option Date;
  updatedAt : option Date;
  wordCount : option nat;
  summary : option jsstring;
  actionItems : option (list jsstring)
}.

(** The empty partial note [{}]. *)
Definition empty : t :=
  mk None None None None None None None None None None.

(** [{ ...note, folder: f }] *)
Definition with_folder (note : t) (f : jsstring) : t :=
  mk (id note) (title note) (content note) (tags note) (Some f)
     (createdAt note) (updatedAt note) (wordCount note) (summary note)
     (actionItems note).

(** [{ ...note, updatedAt: u, wordCount: w }] *)
Definition with_stamp (note : t) (u : Date) (w : nat) : t :=
  mk (id note) (title note) (content note) (tags note) (folder note)
     (createdAt note) (Some u) (Some w) (summary note) (actionItems note).

(** [{ ...note, createdAt: c, updatedAt: u }] *)
Definition with_dates (note : t) (c u : Date) : t :=
  mk (id note) (title note) (content note) (tags note) (folder note)
     (Some c) (Some u) (wordCount note) (summary note) (actionItems note).

Definition is_some {A} (o : option A) : bool :=
  match o with Some _ => true | None => false end.

Definition well_typed (note : t) : bool :=
  is_some (id note) && is_some (title note) && is_some (content note)
  && is_some (tags note) && is_some (folder note)
  && is_some (createdAt note) && is_some (updatedAt note)
  && is_some (wordCount note).
End Note.

(** [interface Folder] *)
Module Folder.
Record t : Type := mk {
  id : jsstring;
  name : jsstring;
  color : jsstring;
  icon : jsstring;
  createdAt : Date
}.

(** [{ ...folder, createdAt: c }] *)
Definition with_created (f : t) (c : Date) : t :=
  mk (id f) (name f) (color f) (icon f) c.
End Folder.

(** [DEFAULT_FOLDERS]; [boot] is the clock when the module is evaluated. *)
Definition DEFAULT_FOLDERS (boot : Z) : list Folder.t :=
  [ Folder.mk (lit "all") (lit "All Notes") (lit "blue") (lit "FileText")
      (Time boot);
    Folder.mk (lit "quick-notes") (lit "Quick Notes") (lit "green")
      (lit "Zap") (Time boot);
    Folder.mk (lit "meetings") (lit "Meetings") (lit "purple") (lit "Users")
      (Time boot);
    Folder.mk (lit "ideas") (lit "Ideas") (lit "yellow") (lit "Lightbulb")
      (Time boot);
    Folder.mk (lit "tasks") (lit "Tasks") (lit "red") (lit "CheckSquare")
      (Time boot) ].

(** The body of the welcome note, as the source file spells it. *)
Definition welcomeContent : jsstring :=
  [240; 376; 381; 8240]%N
  ++ lit " Welcome to your enhanced AI-powered note-taking app!"
  ++ [10; 10; 226; 339; 168]%N
  ++ lit " **New Features:**"
  ++ [10; 10; 240; 376; 8220]%N
  ++ lit " **Smart Organization**: Notes are now organized in folders "
     ++ lit "with AI-powered categorization"
  ++ [10; 10; 240; 376; 338; 8482]%N
  ++ lit " **Dark Mode**: Toggle between light and dark themes in the "
     ++ lit "header"
  ++ [10; 10; 240; 376; 8217; 190]%N
  ++ lit " **Offline Mode**: Your notes are automatically saved "
     ++ lit "locally and will sync when online"
  ++ [10; 10; 240; 376; 8221]%N
  ++ lit " **Advanced Search**: Full-text search with highlighting "
     ++ lit "across all your notes"
  ++ [10; 10; 240; 376; 8220; 352]%N
  ++ lit " **AI Summaries**: Get automatic summaries and action items "
     ++ lit "for your notes"
  ++ [10; 10; 240; 376; 381; 164]%N
  ++ lit " **Voice Recording**: Continue using voice-to-text for "
     ++ lit "hands-free note-taking"
  ++ [10; 10]%N
  ++ lit "Start exploring these features and boost your productivity!".

(** [welcomeNote]; [tc] and [tu] are the two clock readings of its
    [new Date()] expressions. *)
Definition welcomeNote (tc tu : Z) : Note.t :=
  Note.mk (Some (lit "1")) (Some (lit "Welcome to AI Notes Pro"))
    (Some welcomeContent)
    (Some [lit "welcome"; lit "features"; lit "getting-started"])
    (Some (lit "quick-notes")) (Some (Time tc)) (Some (Time tu)) (Some 95)
    (Some (lit "Introduction to new AI Notes Pro features including "
           ++ lit "smart organization, dark mode, offline sync, "
           ++ lit "advanced search, AI summaries, and voice recording."))
    (Some [lit "Explore the folder organization system";
           lit "Try the dark mode toggle";
           lit "Test voice recording functionality";
           lit "Use AI summarization on longer notes"]).

(* ================================================================== *)
(** ** The hook's state and its durable mirror *)
(* ================================================================== *)

(** One [localStorage] entry, seen through [getItem] and [JSON.parse]:
    absent (or the empty string, which is falsy), text that does not parse
    to an array, or the serialisation of a value.  A [Stored] entry holds
    the value that was serialised. *)
Inductive entry (A : Type) : Type :=
| Absent
| Malformed
| Stored (v : A).
Arguments Absent {A}.
Arguments Malformed {A}.
Arguments Stored {A} v.

Record Store : Type := mkStore {
  notes : list Note.t;
  folders : list Folder.t;
  isLoading : bool;
  lastSync : option Date;
  ls_notes : entry (list Note.t);       (* "ai-notes-notes" *)
  ls_folders : entry (list Folder.t);   (* "ai-notes-folders" *)
  ls_lastSync : entry Date              (* "ai-notes-last-sync" *)
}.

(** The effect with dependencies [[notes, isLoading]]. *)
Definition notesEffect (st : Store) : Store :=
  if negb (isLoading st) && (0 <? List.length (notes st))%nat
  then mkStore (notes st) (folders st) (isLoading st) (lastSync st)
         (Stored (notes st)) (ls_folders st) (ls_lastSync st)
  else st.

(** The effect with dependencies [[folders, isLoading]]. *)
Definition foldersEffect (st : Store) : Store :=
  if negb (isLoading st)
  then mkStore (notes st) (folders st) (isLoading st) (lastSync st)
         (ls_notes st) (Stored (folders st)) (ls_lastSync st)
  else st.

(** A state setter installs the new value; the re-render that follows runs
    the effects that depend on it.  [map], [filter] and the spread always
    build a new array, so the dependency has changed whenever a setter was
    called. *)
Definition setNotes (f : list Note.t -> list Note.t) (st : Store) : Store :=
  notesEffect
    (mkStore (f (notes st)) (folders st) (isLoading st) (lastSync st)
       (ls_notes st) (ls_folders st) (ls_lastSync st)).

Definition setFolders (f : list Folder.t -> list Folder.t) (st : Store)
  : Store :=
  foldersEffect
    (mkStore (notes st) (f (folders st)) (isLoading st) (lastSync st)
       (ls_notes st) (ls_folders st) (ls_lastSync st)).

Definition setLastSync (d : option Date) (st : Store) : Store :=
  mkStore (notes st) (folders st) (isLoading st) d
    (ls_notes st) (ls_folders st) (ls_lastSync st).

Definition setIsLoading (b : bool) (st : Store) : Store :=
  foldersEffect
    (notesEffect
       (mkStore (notes st) (folders st) b (lastSync st)
          (ls_notes st) (ls_folders st) (ls_lastSync st))).

(** The state of the first render, over the storage [ls] found in the
    browser. *)
Definition mount (boot : Z) (n : entry (list Note.t))
  (f : entry (list Folder.t)) (s : entry Date) : Store :=
  mkStore [] (DEFAULT_FOLDERS boot) true None n f s.

(** [new Date(x)] for a timestamp read back from JSON: a property that was
    [undefined] is missing from the text and gives the invalid date, and an
    invalid date was written as [null] and gives the epoch. *)
Definition revive (d : option Date) : Date :=
  match d with
  | None => InvalidDate
  | Some (Time t) => Time t
  | Some InvalidDate => Time 0
  end.

Definition reviveNote (note : Note.t) : Note.t :=
  Note.with_dates note (revive (Note.createdAt note))
    (revive (Note.updatedAt note)).

Definition reviveFolder (f : Folder.t) : Folder.t :=
  Folder.with_created f (revive (Some (Folder.createdAt f))).

(** [loadData], run once after the first render.  A [JSON.parse] that
    throws is caught: the setters already called stand, and loading ends. *)
Definition loadData (tc tu : Z) (st : Store) : Store :=
  match ls_notes st with
  | Malformed => setIsLoading false st
  | en =>
      let st1 :=
        setNotes (fun _ => match en with
                           | Stored l => map reviveNote l
                           | _ => [welcomeNote tc tu]
                           end) st in
      match ls_folders st1 with
      | Malformed => setIsLoading false st1
      | ef =>
          let st2 :=
            match ef with
            | Stored l => setFolders (fun _ => map reviveFolder l) st1
            | _ => st1
            end in
          let st3 :=
            match ls_lastSync st2 with
            | Absent => st2
            | Malformed => setLastSync (Some InvalidDate) st2
            | Stored d => setLastSync (Some d) st2
            end in
          setIsLoading false st3
      end
  end.

(* ================================================================== *)
(** ** Operations *)
(* ================================================================== *)

(** [text.split(/\s+/).filter(word => word.length > 0).length] *)
Definition countWords (text : jsstring) : nat :=
  List.length
    (filter (fun word => (0 <? List.length word)%nat) (split_ws text)).

(** The object built by the creation path of [saveNote]; [now] is the
    reading of [new Date()] and [stamp] that of [Date.now()]. *)
Definition newNote (now stamp : Z) (noteData : Note.t) : Note.t :=
  Note.mk
    (Some (number_toString stamp))
    (Some (or_str (Note.title noteData) (lit "Untitled")))
    (Some (or_str (Note.content noteData) []))
    (Some (or_arr (Note.tags noteData) []))
    (Some (or_str (Note.folder noteData) (lit "quick-notes")))
    (Some (Time now))
    (Some (Time now))
    (Some (countWords (or_str (Note.content noteData) [])))
    (Note.summary noteData)
    (Note.actionItems noteData).

(** The object built by the update path of [saveNote]. *)
Definition updatedNote (now : Z) (noteData : Note.t) : Note.t :=
  Note.with_stamp noteData (Time now)
    (countWords (or_str (Note.content noteData) [])).

Definition saveNote (now stamp : Z) (noteData : Note.t) (st : Store)
  : Note.t * Store :=
  if negb (truthy (Note.id noteData))
  then
    let n := newNote now stamp noteData in
    (n, setNotes (fun prev => n :: prev) st)
  else
    let u := updatedNote now noteData in
    (u, setNotes
          (fun prev =>
             map (fun note =>
                    if strict_eq (Note.id note) (Note.id noteData)
                    then u else note) prev) st).

Definition deleteNote (noteId : jsstring) (st : Store) : Store :=
  setNotes
    (fun prev =>
       filter (fun note => negb (strict_eq (Note.id note) (Some noteId)))
         prev) st.

(** [color] and [icon] are the optional arguments, with their defaults. *)
Definition createFolder (stamp now : Z) (name : jsstring)
  (color icon : option jsstring) (st : Store) : Folder.t * Store :=
  let newFolder :=
    Folder.mk (number_toString stamp) name
      (match color with Some c => c | None => lit "blue" end)
      (match icon with Some i => i | None => lit "Folder" end)
      (Time now) in
  (newFolder, setFolders (fun prev => prev ++ [newFolder]) st).

(** [note => note.folder === folderId] *)
Definition inFolder (folderId : jsstring) (note : Note.t) : bool :=
  strict_eq (Note.folder note) (Some folderId).

(** [note => note.folder === folderId
            ? { ...note, folder: "quick-notes" } : note] *)
Definition moveOut (folderId : jsstring) (note : Note.t) : Note.t :=
  if inFolder folderId note
  then Note.with_folder note (lit "quick-notes")
  else note.

Definition deleteFolder (boot : Z) (folderId : jsstring) (st : Store)
  : Store :=
  if existsb (fun f => str_eqb (Folder.id f) folderId) (DEFAULT_FOLDERS boot)
  then st
  else
    setFolders
      (fun prev =>
         filter (fun folder => negb (str_eqb (Folder.id folder) folderId))
           prev)
      (setNotes (fun prev => map (moveOut folderId) prev) st).

Definition getNotesInFolder (folderId : jsstring) (st : Store)
  : list Note.t :=
  if str_eqb folderId (lit "all")
  then notes st
  else filter (inFolder folderId) (notes st).

(** [syncNotes] once its delay has elapsed; [now] is the clock then, and
    [stored] says whether [localStorage.setItem] returned ([true]) or
    threw ([false]).  The throw comes after [setLastSync] and is caught:
    the entry is not written and the call returns [false]. *)
Definition syncNotes (now : Z) (stored : bool) (st : Store)
  : bool * Store :=
  let st1 := setLastSync (Some (Time now)) st in
  if stored
  then (true,
        mkStore (notes st1) (folders st1) (isLoading st1) (lastSync st1)
          (ls_notes st1) (ls_folders st1) (Stored (Time now)))
  else (false, st1).

Section WithRuntime.
Context {rt : JsRuntime}.

(** The callback of [searchNotes]: the four tests joined by [||], left to
    right, the later ones evaluated only when the earlier ones are false.
    [note.title.toLowerCase()] throws when the property is [undefined]. *)
Definition noteMatches (searchTerm : jsstring) (note : Note.t)
  : result bool :=
  t <- deref (Note.title note) ;;
  if includes (toLowerCase t) searchTerm then Ok true else
  c <- deref (Note.content note) ;;
  if includes (toLowerCase c) searchTerm then Ok true else
  ts <- deref (Note.tags note) ;;
  if existsb (fun tag => includes (toLowerCase tag) searchTerm) ts
  then Ok true else
  Ok (match Note.summary note with
      | Some (c :: s) => includes (toLowerCase (c :: s)) searchTerm
      | _ => false
      end).

Definition searchNotes (query : jsstring) (st : Store)
  : result (list Note.t) :=
  match trim query with
  | [] => Ok (notes st)
  | _ :: _ => filterM (noteMatches (toLowerCase query)) (notes st)
  end.

Definition categorizeNote (content : jsstring) : jsstring :=
  let text := toLowerCase content in
  if includes text (lit "meeting") || includes text (lit "agenda")
     || includes text (lit "discussed")
  then lit "meetings"
  else if includes text (lit "idea") || includes text (lit "brainstorm")
          || includes text (lit "concept")
  then lit "ideas"
  else if includes text (lit "todo") || includes text (lit "task")
          || includes text (lit "action item")
  then lit "tasks"
  else lit "quick-notes".

End WithRuntime.

(** One call into the hook, with the clock readings it takes. *)
Inductive Call : Type :=
| SaveNote (now stamp : Z) (noteData : Note.t)
| DeleteNote (noteId : jsstring)
| CreateFolder (stamp now : Z) (name : jsstring)
    (color icon : option jsstring)
| DeleteFolder (folderId : jsstring)
| GetNotesInFolder (folderId : jsstring)
| SearchNotes (query : jsstring)
| SyncNotes (now : Z) (stored : bool)
| CategorizeNote (content : jsstring).

(** The hook's state after a call.  The three queries call no setter. *)
Definition after (boot : Z) (c : Call) (st : Store) : Store :=
  match c with
  | SaveNote now stamp noteData => snd (saveNote now stamp noteData st)
  | DeleteNote noteId => deleteNote noteId st
  | CreateFolder stamp now name color icon =>
      snd (createFolder stamp now name color icon st)
  | DeleteFolder folderId => deleteFolder boot folderId st
  | GetNotesInFolder _ => st
  | SearchNotes _ => st
  | SyncNotes now stored => snd (syncNotes now stored st)
  | CategorizeNote _ => st
  end.

(** The states the hook goes through: the one [loadData] leaves, over any
    storage content, and then any sequence of calls. *)
Inductive reachable (boot : Z) : Store -> Prop :=
| reach_load : forall n f s tc tu,
    reachable boot (loadData tc tu (mount boot n f s))
| reach_call : forall st c,
    reachable boot st -> reachable boot (after boot c st).

(* ================================================================== *)
(** ** The properties, as definitions *)
(* ================================================================== *)

(** [t] occurs in [s] as a contiguous substring. *)
Definition Substring (t s : jsstring) : Prop :=
  exists pre post, s = pre ++ t ++ post.

(** A string made of white space only. *)
Definition blank (s : jsstring) : Prop :=
  Forall (fun c => isWhiteSpace c = true) s.

(** A token: a non-empty string without white space. *)
Definition token (w : jsstring) : Prop :=
  w <> [] /\ Forall (fun c => isWhiteSpace c = false) w.

(** [Tokens s ws]: [ws] are the white-space-delimited tokens of [s], in
    order.  Each token is preceded by a (possibly empty) run of white
    space and is followed by the end of the string or by white space. *)
Inductive Tokens : jsstring -> list jsstring -> Prop :=
| Tokens_blank : forall sp, blank sp -> Tokens sp []
| Tokens_token : forall sp w rest ws,
    blank sp -> token w ->
    (rest = [] \/ exists c r, rest = c :: r /\ isWhiteSpace c = true) ->
    Tokens rest ws ->
    Tokens (sp ++ w ++ rest) (w :: ws).

(** [l] is [m] with some elements left out: the order is kept and nothing
    is repeated or added. *)
Inductive Subseq {A : Type} : list A -> list A -> Prop :=
| Subseq_nil : Subseq [] []
| Subseq_skip : forall x l m, Subseq l m -> Subseq l (x :: m)
| Subseq_keep : forall x l m, Subseq l m -> Subseq (x :: l) (x :: m).

(** What [searchNotes] is said to select: the term occurs in the lowered
    title, body, some tag, or the summary when there is one. *)
Definition Matches {rt : JsRuntime} (term : jsstring) (note : Note.t)
  : Prop :=
  (exists t, Note.title note = Some t /\ Substring term (toLowerCase t))
  \/ (exists c, Note.content note = Some c
                /\ Substring term (toLowerCase c))
  \/ (exists ts tag, Note.tags note = Some ts /\ In tag ts
                     /\ Substring term (toLowerCase tag))
  \/ (exists s, Note.summary note = Some s
                /\ Substring term (toLowerCase s)).

(** The durable mirror equals the in-memory collections. *)
Definition mirrored (st : Store) : Prop :=
  ls_notes st = Stored (notes st) /\ ls_folders st = Stored (folders st).

(** The timestamps of a note are in order. *)
Definition stamped_in_order (note : Note.t) : Prop :=
  date_ge (Note.updatedAt note) (Note.createdAt note) = true.

(** The runtime whose case mapping lowers ASCII letters and keeps every
    other code unit: an instance of the interface, for running examples. *)
Definition asciiRuntime : JsRuntime :=
  {| toLowerCase := map asciiLower;
     toLowerCase_empty := eq_refl;
     toLowerCase_ascii := fun s _ => eq_refl |}.

(** [l] is exactly the elements of [m] that satisfy [P], in the order and
    with the multiplicity they have in [m]. *)
Inductive Selection {A : Type} (P : A -> Prop) : list A -> list A -> Prop :=
| Selection_nil : Selection P [] []
| Selection_keep : forall x l m,
    P x -> Selection P l m -> Selection P (x :: l) (x :: m)
| Selection_drop : forall x l m,
    ~ P x -> Selection P l m -> Selection P l (x :: m).

(** The identifier of [n] is carried by no note of the collection. *)
Definition fresh_id (n : Note.t) (st : Store) : Prop :=
  ~ In (Note.id n) (map Note.id (notes st)).

(** A note has the properties [searchNotes] calls methods on. *)
Definition has_text (note : Note.t) : bool :=
  Note.is_some (Note.title note) && Note.is_some (Note.content note)
  && Note.is_some (Note.tags note).

(** [n'] is [n] moved to folder [f], the same in every other property. *)
Definition moved (f : jsstring) (n n' : Note.t) : Prop :=
  Note.folder n' = Some f
  /\ Note.id n' = Note.id n
  /\ Note.title n' = Note.title n
  /\ Note.content n' = Note.content n
  /\ Note.tags n' = Note.tags n
  /\ Note.createdAt n' = Note.createdAt n
  /\ Note.updatedAt n' = Note.updatedAt n
  /\ Note.wordCount n' = Note.wordCount n
  /\ Note.summary n' = Note.summary n
  /\ Note.actionItems n' = Note.actionItems n.

(** The identifiers of the default folder set. *)
Definition default_ids (boot : Z) : list jsstring :=
  map Folder.id (DEFAULT_FOLDERS boot).

(** The keyword rules of [categorizeNote], in the order they are tried. *)
Definition meetingWords : list jsstring :=
  [lit "meeting"; lit "agenda"; lit "discussed"].
Definition ideaWords : list jsstring :=
  [lit "idea"; lit "brainstorm"; lit "concept"].
Definition taskWords : list jsstring :=
  [lit "todo"; lit "task"; lit "action item"].

(** Some keyword of the list occurs in the text. *)
Definition mentions (text : jsstring) (keywords : list jsstring) : Prop :=
  exists k, In k keywords /\ Substring k text.

(** What the effects maintain: loading is over, the folder entry holds the
    folder collection, and the note entry holds the note collection unless
    that collection is empty. *)
Definition persisted (st : Store) : Prop :=
  isLoading st = false
  /\ ls_folders st = Stored (folders st)
  /\ (notes st = [] \/ ls_notes st = Stored (notes st)).

(** The state of a first run: nothing in storage, loaded at clock 1000. *)
Definition firstRun : Store :=
  loadData 1000 1000 (mount 1000 Absent Absent Absent).

(** The partial note [{ id: "1", content: "hello world" }]. *)
Definition editBody : Note.t :=
  Note.mk (Some (lit "1")) None (Some (lit "hello world")) None None None
    None None None None.

(** A partial note of the shape the editor's [handleSave] sends
    (identifier, title, body, tags, folder and word count, and no
    timestamp), for the welcome note with its body replaced by "hello
    world"; the summary and the action items are left out. *)
Definition editorSave : Note.t :=
  Note.mk (Some (lit "1")) (Some (lit "Welcome to AI Notes Pro"))
    (Some (lit "hello world"))
    (Some [lit "welcome"; lit "features"; lit "getting-started"])
    (Some (lit "quick-notes")) None None (Some 2%nat) None None.

(** What [handleCreateNote] passes at clock 3000 on a first run: a whole
    note with an identifier of its own making. *)
Definition createdByCaller : Note.t :=
  Note.mk (Some (number_toString 3000)) (Some []) (Some []) (Some [])
    (Some (lit "quick-notes")) (Some (Time 3000)) (Some (Time 3000))
    (Some 0%nat) None None.

(** A first run on which the user made a folder "Work" at clock 5000 and
    then saved a new note into it at clock 6000. *)
Definition workNote : Note.t :=
  Note.mk None (Some (lit "Plan")) (Some (lit "ship it")) None
    (Some (number_toString 5000)) None None None None None.

Definition withWork : Store :=
  snd (saveNote 6000 6000 workNote
         (snd (createFolder 5000 5000 (lit "Work") None None firstRun))).

(* ================================================================== *)
(** ** The page that uses the hook ([pages/Index.tsx]) *)
(* ================================================================== *)

(** A call of [toast]. *)
Record Toast : Type := mkToast {
  toast_title : jsstring;
  toast_description : jsstring
}.

(** The state of the [Index] component: the hook's state, the note open
    in the editor, the selected folder, the search box, and the toasts
    shown so far (oldest first). *)
Record Page : Type := mkPage {
  hook : Store;
  activeNote : option Note.t;
  activeFolderId : jsstring;
  searchQuery : jsstring;
  toasts : list Toast
}.

(** [activeNote?.id] *)
Definition activeId (p : Page) : option jsstring :=
  match activeNote p with
  | Some a => Note.id a
  | None => None
  end.

Definition handleSelectNote (note : Note.t) (p : Page) : Page :=
  mkPage (hook p) (Some note) (activeFolderId p) (searchQuery p) (toasts p).

Definition handleSelectFolder (folderId : jsstring) (p : Page) : Page :=
  mkPage (hook p) None folderId (searchQuery p) (toasts p).

(** The note [handleCreateNote] builds; [stamp] is the reading of
    [Date.now()], [tc] and [tu] those of the two [new Date()]. *)
Definition blankNote (stamp tc tu : Z) (folderId : jsstring) : Note.t :=
  Note.mk (Some (number_toString stamp)) (Some []) (Some []) (Some [])
    (Some (if str_eqb folderId (lit "all") then lit "quick-notes"
           else folderId))
    (Some (Time tc)) (Some (Time tu)) (Some 0%nat) None None.

(** [now] and [stamp2] are the clock readings of the [saveNote] call. *)
Definition handleCreateNote (stamp tc tu now stamp2 : Z) (p : Page) : Page :=
  let savedNote :=
    saveNote now stamp2 (blankNote stamp tc tu (activeFolderId p)) (hook p) in
  mkPage (snd savedNote) (Some (fst savedNote)) (activeFolderId p)
    (searchQuery p) (toasts p).

(** [folders.find(f => f.id === id)?.name || "folder"] *)
Definition folderLabel (fs : list Folder.t) (id : jsstring) : jsstring :=
  match find (fun f => str_eqb (Folder.id f) id) fs with
  | Some f => or_str (Some (Folder.name f)) (lit "folder")
  | None => lit "folder"
  end.

Section PageWithRuntime.
Context {rt : JsRuntime}.

(** The first statement of [handleSaveNote]: a note with a body and no
    folder gets the folder [categorizeNote] picks. *)
Definition autoCategorized (noteData : Note.t) : Note.t :=
  match Note.content noteData with
  | Some (c :: r) =>
      if negb (truthy (Note.folder noteData))
      then Note.with_folder noteData (categorizeNote (c :: r))
      else noteData
  | _ => noteData
  end.

Definition handleSaveNote (now stamp : Z) (noteData : Note.t) (p : Page)
  : Page :=
  let noteData' := autoCategorized noteData in
  let savedNote := saveNote now stamp noteData' (hook p) in
  let shown :=
    match Note.folder noteData' with
    | Some (c :: f) =>
        if negb (str_eqb (c :: f) (activeFolderId p))
        then [mkToast (lit "Note auto-categorized")
                (lit "Moved to " ++ folderLabel (folders (hook p)) (c :: f))]
        else []
    | _ => []
    end in
  mkPage (snd savedNote) (Some (fst savedNote)) (activeFolderId p)
    (searchQuery p) (toasts p ++ shown).

Definition getDisplayedNotes (p : Page) : result (list Note.t) :=
  match trim (searchQuery p) with
  | _ :: _ => searchNotes (searchQuery p) (hook p)
  | [] => Ok (getNotesInFolder (activeFolderId p) (hook p))
  end.

(** [handleDeleteNote]; [getDisplayedNotes] reads the collection of the
    current render, before the deletion.  The call throws when the search
    does. *)
Definition handleDeleteNote (noteId : jsstring) (p : Page) : result Page :=
  let deleted :=
    mkToast (lit "Note deleted")
      (lit "Note has been removed successfully.") in
  if strict_eq (activeId p) (Some noteId)
  then
    displayed <- getDisplayedNotes p ;;
    let remainingNotes :=
      filter (fun note => negb (strict_eq (Note.id note) (Some noteId)))
        displayed in
    Ok (mkPage (deleteNote noteId (hook p))
          (match remainingNotes with
           | first :: _ => Some first
           | [] => None
           end)
          (activeFolderId p) (searchQuery p) (toasts p ++ [deleted]))
  else
    Ok (mkPage (deleteNote noteId (hook p)) (activeNote p)
          (activeFolderId p) (searchQuery p) (toasts p ++ [deleted])).

End PageWithRuntime.

(* ================================================================== *)
(** ** The sidebar ([components/NoteSidebarNew.tsx]) *)
(* ================================================================== *)

Module Sidebar.

(** [getNotesInFolder], over the [notes] the page passes in. *)
Definition getNotesInFolder (notes : list Note.t) (folderId : jsstring)
  : list Note.t :=
  if str_eqb folderId (lit "all") then notes
  else filter (inFolder folderId) notes.

Definition getPreview (content : jsstring) : jsstring :=
  if (60 <? List.length content)%nat
  then firstn 60 content ++ lit "..."
  else content.

(** [notes.slice(0, 5)] *)
Definition recentNotes (notes : list Note.t) : list Note.t := firstn 5 notes.

(** [formatDate]; [now] is the clock reading and [toLocaleDateString] the
    engine's locale-dependent rendering.  Both time values are integral
    numbers of milliseconds; while their difference is below 2^53 in
    magnitude it is exact, and [Math.floor] of its quotient by the length
    of a day is the floor of the exact quotient.  With the invalid date
    the difference is [NaN] and every comparison is false. *)
Definition formatDate (toLocaleDateString : Date -> jsstring) (now : Z)
  (date : Date) : jsstring :=
  match date with
  | Time t =>
      let diffInDays := ((now - t) / (1000 * 60 * 60 * 24))%Z in
      if (diffInDays =? 0)%Z then lit "Today"
      else if (diffInDays =? 1)%Z then lit "Yesterday"
      else if (diffInDays <? 7)%Z
      then number_toString diffInDays ++ lit " days ago"
      else toLocaleDateString date
  | InvalidDate => toLocaleDateString date
  end.

End Sidebar.

(* ================================================================== *)
(** ** The editor ([components/NoteEditorNew.tsx]) *)
(* ================================================================== *)

(** The elements of [new Set(l)] in insertion order, starting from a set
    that holds [acc]: an element is added when no equal one is there. *)
Fixpoint setAddAll (acc l : list jsstring) : list jsstring :=
  match l with
  | [] => acc
  | x :: l' =>
      setAddAll (if existsb (str_eqb x) acc then acc else acc ++ [x]) l'
  end.

Module Editor.

(** [addTag], on the component's [tags] and [newTag]. *)
Definition addTag (tags : list jsstring) (newTag : jsstring)
  : list jsstring * jsstring :=
  match trim newTag with
  | c :: r =>
      if negb (existsb (str_eqb (c :: r)) tags)
      then (tags ++ [c :: r], [])
      else (tags, newTag)
  | [] => (tags, newTag)
  end.

Definition removeTag (tagToRemove : jsstring) (tags : list jsstring)
  : list jsstring :=
  filter (fun tag => negb (str_eqb tag tagToRemove)) tags.

(** What [handleSave] passes to [onSave]; [note] is the note being edited
    ([null] for a new one), the rest is the component's state. *)
Definition handleSave (note : option Note.t) (title content : jsstring)
  (tags : list jsstring) (selectedFolder summary : jsstring)
  (actionItems : list jsstring) : Note.t :=
  Note.mk
    (match note with Some n => Note.id n | None => None end)
    (Some (or_str (Some title) (lit "Untitled Note")))
    (Some content)
    (Some tags)
    (Some selectedFolder)
    None
    None
    (Some (countWords content))
    (match summary with _ :: _ => Some summary | [] => None end)
    (match actionItems with _ :: _ => Some actionItems | [] => None end).

Section EditorWithRuntime.
Context {rt : JsRuntime}.

(** The [suggestedTags] of [handleAutoTag]: one tag per keyword rule that
    applies, in the order of the rules, and the first two fallback tags
    when none does. *)
Definition suggestedTags (content : jsstring) : list jsstring :=
  let text := toLowerCase content in
  let detected :=
    (if includes text (lit "meeting") || includes text (lit "agenda")
     then [lit "meeting"] else [])
    ++ (if includes text (lit "idea") || includes text (lit "brainstorm")
        then [lit "idea"] else [])
    ++ (if includes text (lit "task") || includes text (lit "todo")
        then [lit "task"] else [])
    ++ (if includes text (lit "project") then [lit "project"] else [])
    ++ (if includes text (lit "research") then [lit "research"] else [])
    ++ (if includes text (lit "important") || includes text (lit "urgent")
        then [lit "priority"] else []) in
  match detected with
  | [] => firstn 2 [lit "note"; lit "draft"; lit "thoughts"; lit "work"]
  | _ :: _ => detected
  end.

(** The tags after [handleAutoTag]:
    [[...new Set([...prev, ...suggestedTags])]]. *)
Definition handleAutoTag (content : jsstring) (prev : list jsstring)
  : list jsstring :=
  setAddAll [] (prev ++ suggestedTags content).

End EditorWithRuntime.

End Editor.

(* ================================================================== *)
(** ** The editor: summaries ([handleSummarize]) *)
(* ================================================================== *)

(** The class [[.!?]]. *)
Definition isSentenceEnd (c : N) : bool :=
  ((c =? 46) || (c =? 33) || (c =? 63))%N.

(** [s.split(re)] for a regular expression [re] that matches the non-empty
    runs of the characters [isSep] accepts; [sep] and [cur] are as in
    [split_from]. *)
Fixpoint splitRuns (isSep : N -> bool) (sep : bool) (cur s : jsstring)
  : list jsstring :=
  match s with
  | [] => [cur]
  | c :: s' =>
      if isSep c
      then if sep then splitRuns isSep true cur s'
           else cur :: splitRuns isSep true [] s'
      else splitRuns isSep false (cur ++ [c]) s'
  end.

(** [l.join(sep)] *)
Fixpoint join (sep : jsstring) (l : list jsstring) : jsstring :=
  match l with
  | [] => []
  | [x] => x
  | x :: l' => x ++ sep ++ join sep l'
  end.

(** The [generatedSummary] of [handleSummarize]: the first three
    sentences that are not blank, trimmed, joined by ". " and closed by a
    period. *)
Definition generatedSummary (content : jsstring) : jsstring :=
  let sentences :=
    filter (fun s => (0 <? List.length (trim s))%nat)
      (splitRuns isSentenceEnd false [] content) in
  let keyPoints := join (lit ". ") (map trim (firstn 3 sentences)) in
  keyPoints ++ lit ".".

(* ================================================================== *)
(** ** The editor: polishing ([handlePolish]) *)
(* ================================================================== *)

(** [s.replace(/\s+/g, " ")]: every maximal run of white space becomes
    one space.  [inRun] says that the scan is inside a run. *)
Fixpoint collapseSpaces (inRun : bool) (s : jsstring) : jsstring :=
  match s with
  | [] => []
  | c :: s' =>
      if isWhiteSpace c
      then if inRun then collapseSpaces true s'
           else 32%N :: collapseSpaces true s'
      else c :: collapseSpaces false s'
  end.

(** The class [[a-z]]. *)
Definition isLowerLetter (c : N) : bool := ((97 <=? c) && (c <=? 122))%N.

(** [s.replace(/([.!?])\s*([a-z])/g, "$1 $2")]: a mark, any white space
    and a lower-case letter become the mark, one space and the letter.
    [pending] is [Some ws] when the scan has copied a mark and has read
    the white space [ws] since: a lower-case letter then completes a
    match, any other character or the end gives up the attempt, and the
    white space is copied as it was. *)
Fixpoint spaceAfterMark (pending : option jsstring) (s : jsstring)
  : jsstring :=
  match s with
  | [] => match pending with Some ws => ws | None => [] end
  | c :: s' =>
      match pending with
      | Some ws =>
          if isWhiteSpace c then spaceAfterMark (Some (ws ++ [c])) s'
          else if isLowerLetter c
          then 32%N :: c :: spaceAfterMark None s'
          else ws ++ c :: spaceAfterMark
                             (if isSentenceEnd c then Some [] else None) s'
      | None =>
          c :: spaceAfterMark (if isSentenceEnd c then Some [] else None) s'
      end
  end.

(** The class [\w]. *)
Definition isWordChar (c : N) : bool :=
  ((48 <=? c) && (c <=? 57) || (65 <=? c) && (c <=? 90) || (c =? 95)
   || (97 <=? c) && (c <=? 122))%N.

(** [s.replace(/\bi\b/g, "I")]: a letter i that stands alone as a word.
    [prevWord] says that the character before is a word character. *)
Fixpoint capitalI (prevWord : bool) (s : jsstring) : jsstring :=
  match s with
  | [] => []
  | c :: s' =>
      (if (c =? 105)%N && negb prevWord
          && negb (match s' with d :: _ => isWordChar d | [] => false end)
       then 73%N else c)
      :: capitalI (isWordChar c) s'
  end.

(** The [polishedContent] of [handlePolish]. *)
Definition polishedContent (content : jsstring) : jsstring :=
  trim (capitalI false
          (spaceAfterMark None (collapseSpaces false content))).

(** The [polishedContent] of the earlier editor ([unnamed/part_001]),
    which does not capitalise. *)
Definition polishedContentOld (content : jsstring) : jsstring :=
  trim (spaceAfterMark None (collapseSpaces false content)).

(** White space is tidy: every white-space character is a space and no two
    of them are adjacent.  [prevWs] says that the character before is
    white space. *)
Fixpoint tidy (prevWs : bool) (s : jsstring) : bool :=
  match s with
  | [] => true
  | c :: s' =>
      if isWhiteSpace c
      then (c =? 32)%N && negb prevWs && tidy true s'
      else tidy false s'
  end.

(** No white space at either end. *)
Definition trimmed (s : jsstring) : Prop :=
  s = []
  \/ exists a m z,
       (s = [a] \/ s = a :: m ++ [z])
       /\ isWhiteSpace a = false /\ isWhiteSpace z = false.

(* ================================================================== *)
(** ** The earlier sidebar ([unnamed/part_000]) *)
(* ================================================================== *)

Module OldSidebar.

Section OldSidebarWithRuntime.
Context {rt : JsRuntime}.

(** The callback of [filteredNotes]. *)
Definition noteMatches (searchQuery : jsstring) (note : Note.t)
  : result bool :=
  t <- deref (Note.title note) ;;
  if includes (toLowerCase t) (toLowerCase searchQuery) then Ok true else
  c <- deref (Note.content note) ;;
  if includes (toLowerCase c) (toLowerCase searchQuery) then Ok true else
  ts <- deref (Note.tags note) ;;
  Ok (existsb
        (fun tag => includes (toLowerCase tag) (toLowerCase searchQuery))
        ts).

Definition filteredNotes (searchQuery : jsstring) (notes : list Note.t)
  : result (list Note.t) :=
  filterM (noteMatches searchQuery) notes.

End OldSidebarWithRuntime.

Definition getPreview (content : jsstring) : jsstring :=
  if (100 <? List.length content)%nat
  then firstn 100 content ++ lit "..."
  else content.

End OldSidebar.

(* ================================================================== *)
(** ** Further properties, as definitions *)
(* ================================================================== *)

(** Both timestamps of a note are valid times. *)
Definition dated (note : Note.t) : Prop :=
  (exists c, Note.createdAt note = Some (Time c))
  /\ (exists u, Note.updatedAt note = Some (Time u)).

(** The creation time of a folder is a valid time. *)
Definition folder_dated (f : Folder.t) : Prop :=
  exists c, Folder.createdAt f = Time c.

(** What the earlier sidebar's filter selects. *)
Definition OldMatches {rt : JsRuntime} (term : jsstring) (note : Note.t)
  : Prop :=
  (exists t, Note.title note = Some t /\ Substring term (toLowerCase t))
  \/ (exists c, Note.content note = Some c
                /\ Substring term (toLowerCase c))
  \/ (exists ts tag, Note.tags note = Some ts /\ In tag ts
                     /\ Substring term (toLowerCase tag)).

(** A page over the state [withWork], with the welcome note open, the
    folder "Work" selected and an empty search box. *)
Definition workPage : Page :=
  mkPage withWork (Some (welcomeNote 1000 1000)) (number_toString 5000) []
    [].

(** The page of a first run: no note open, "all" selected, nothing in
    the search box. *)
Definition firstPage : Page := mkPage firstRun None (lit "all") [] [].

(** A note with a body and nothing else. *)
Definition agendaNote : Note.t :=
  Note.mk None None (Some (lit "Let's discuss the meeting agenda")) None
    None None None None None None.

(** The state after [saveNote({ id: "1", content: "hello world" })] on a
    first run. *)
Definition afterEdit : Store :=
  after 1000 (SaveNote 2000 2000 editBody) firstRun.

Unset Implicit Arguments.

(* ================================================================== *)
(** ** Strings: equality, containment, trimming *)
(* ================================================================== *)

Lemma str_eqb_true (a b : jsstring) : str_eqb a b = true <-> a = b.
Proof.
  unfold str_eqb. destruct (list_eq_dec N.eq_dec a b); split; congruence.
Qed.

Lemma str_eqb_false (a b : jsstring) : str_eqb a b = false <-> a <> b.
Proof.
  unfold str_eqb. destruct (list_eq_dec N.eq_dec a b); split; congruence.
Qed.

Lemma str_eqb_refl (a : jsstring) : str_eqb a a = true.
Proof. now apply str_eqb_true. Qed.

Lemma strict_eq_true (a b : option jsstring) : strict_eq a b = true <-> a = b.
Proof. unfold strict_eq. destruct (ostr_eq_dec a b); split; congruence. Qed.

Lemma strict_eq_false (a b : option jsstring) :
  strict_eq a b = false <-> a <> b.
Proof. unfold strict_eq. destruct (ostr_eq_dec a b); split; congruence. Qed.

Lemma startsWith_spec (s t : jsstring) :
  startsWith s t = true <-> exists post, s = t ++ post.
Proof.
  revert s. induction t as [| d t IH]; intros s; simpl.
  - split; [intros _; now exists s | reflexivity].
  - destruct s as [| c s].
    + split; [discriminate | intros [post Hp]; discriminate].
    + rewrite andb_true_iff, N.eqb_eq, IH. split.
      * intros [-> [post ->]]. now exists post.
      * intros [post Hp]. injection Hp as -> ->. split; [reflexivity |].
        now exists post.
Qed.

Lemma includes_spec (s t : jsstring) :
  includes s t = true <-> Substring t s.
Proof.
  unfold Substring. induction s as [| c s IH].
  - cbn [includes]. rewrite orb_false_r, startsWith_spec. split.
    + intros [post Hp]. now exists [], post.
    + intros [pre [post Hp]]. destruct pre; [| discriminate].
      now exists post.
  - cbn [includes]. rewrite orb_true_iff, startsWith_spec, IH. split.
    + intros [[post Hp] | [pre [post Hp]]].
      * now exists [], post.
      * exists (c :: pre), post. simpl. now f_equal.
    + intros [pre [post Hp]]. destruct pre as [| c' pre].
      * left. now exists post.
      * right. injection Hp as _ Hp. now exists pre, post.
Qed.

Lemma includes_empty (s : jsstring) : includes s [] = true.
Proof. apply includes_spec. now exists [], s. Qed.

Lemma trimStart_nil (s : jsstring) : trimStart s = [] <-> blank s.
Proof.
  unfold blank. induction s as [| c s IH]; simpl.
  - split; [constructor | reflexivity].
  - destruct (isWhiteSpace c) eqn:Hc.
    + rewrite IH. split.
      * now constructor.
      * intros H. now inversion H.
    + split; [discriminate |]. intros H. inversion H. congruence.
Qed.

Lemma trimStart_head (s : jsstring) (c : N) (r : jsstring) :
  trimStart s = c :: r -> isWhiteSpace c = false.
Proof.
  induction s as [| d s IH]; simpl; [discriminate |].
  destruct (isWhiteSpace d) eqn:Hd; [exact IH |].
  intros H. injection H as -> _. exact Hd.
Qed.

Lemma blank_rev (s : jsstring) : blank (rev s) <-> blank s.
Proof.
  unfold blank. rewrite !Forall_forall.
  split; intros H c Hc; apply H.
  - apply -> in_rev. exact Hc.
  - apply <- in_rev. exact Hc.
Qed.

(** [!query.trim()] holds exactly for the queries made of white space
    only (the empty one included). *)
Lemma trim_nil (q : jsstring) : trim q = [] <-> blank q.
Proof.
  unfold trim. split.
  - intros H. apply (f_equal (@rev N)) in H. rewrite rev_involutive in H.
    simpl in H. apply trimStart_nil in H. apply -> blank_rev in H.
    destruct (trimStart q) as [| c r] eqn:Hq.
    + now apply trimStart_nil.
    + apply trimStart_head in Hq. inversion H; subst. congruence.
  - intros H. apply trimStart_nil in H. now rewrite H.
Qed.

(* ================================================================== *)
(** ** Word count: [split(/\s+/)] against white-space-delimited tokens *)
(* ================================================================== *)

Lemma split_from_blank (sp r : jsstring) :
  blank sp -> split_from true [] (sp ++ r) = split_from true [] r.
Proof.
  induction 1 as [| c sp Hc _ IH]; simpl; [reflexivity |].
  now rewrite Hc.
Qed.

Lemma split_from_run (w cur r : jsstring) :
  Forall (fun c => isWhiteSpace c = false) w ->
  split_from false cur (w ++ r) = split_from false (cur ++ w) r.
Proof.
  intros Hw. revert cur.
  induction Hw as [| c w Hc _ IH]; intros cur; simpl.
  - now rewrite app_nil_r.
  - rewrite Hc, IH, <- app_assoc. reflexivity.
Qed.

Lemma split_from_token (w : jsstring) (b : bool) (r : jsstring) :
  token w -> split_from b [] (w ++ r) = split_from false w r.
Proof.
  intros [Hne Hw]. destruct w as [| c w]; [congruence |].
  inversion Hw as [| c' w' Hc Hw']; subst. simpl. rewrite Hc.
  now rewrite split_from_run.
Qed.

Lemma split_from_start (s : jsstring) :
  filter (fun word => (0 <? List.length word)%nat) (split_from false [] s)
  = filter (fun word => (0 <? List.length word)%nat) (split_from true [] s).
Proof.
  destruct s as [| c s]; simpl; [reflexivity |].
  destruct (isWhiteSpace c); reflexivity.
Qed.

Lemma Tokens_nil_inv (ws : list jsstring) : Tokens [] ws -> ws = [].
Proof.
  intros H. remember [] as s eqn:Hs.
  destruct H as [sp _ | sp w rest ws _ [Hne _] _ _]; [reflexivity |].
  destruct sp; [| discriminate]. destruct w; [congruence | discriminate].
Qed.

Lemma split_from_tokens (s : jsstring) (ws : list jsstring) :
  Tokens s ws ->
  filter (fun word => (0 <? List.length word)%nat) (split_from true [] s)
  = ws.
Proof.
  induction 1 as [sp Hsp | sp w rest ws Hsp Hw Hrest Hts IH].
  - rewrite <- (app_nil_r sp), split_from_blank by assumption. reflexivity.
  - rewrite split_from_blank, split_from_token by assumption.
    assert (Hlen : (0 <? List.length w)%nat = true).
    { destruct Hw as [Hne _]. destruct w; [congruence | reflexivity]. }
    destruct Hrest as [-> | [c [r [-> Hc]]]].
    + apply Tokens_nil_inv in Hts. subst. simpl. now rewrite Hlen.
    + simpl in IH |- *. rewrite Hc in IH |- *. simpl. now rewrite Hlen, IH.
Qed.

(** Every string has a token decomposition. *)
Lemma Tokens_total (s : jsstring) : exists ws, Tokens s ws.
Proof.
  induction s as [| c s [ws IH]].
  - exists []. constructor. constructor.
  - destruct (isWhiteSpace c) eqn:Hc.
    + inversion IH as [sp Hsp | sp w rest ws' Hsp Hw Hrest Hts]; subst.
      * exists []. constructor. now constructor.
      * exists (w :: ws').
        apply (Tokens_token (sp := c :: sp)); try assumption.
        now constructor.
    + assert (Hone : token [c]).
      { split; [discriminate | now constructor]. }
      inversion IH as [sp Hsp | sp w rest ws' Hsp Hw Hrest Hts]; subst.
      * exists [[c]].
        apply (Tokens_token (sp := []) (w := [c]) (rest := s));
          try assumption; [constructor |].
        destruct s as [| d s]; [now left | right].
        exists d, s. split; [reflexivity |]. now inversion Hsp.
      * destruct sp as [| d sp].
        -- exists ((c :: w) :: ws').
           apply (Tokens_token (sp := []) (w := c :: w)); try assumption.
           destruct Hw as [_ Hw]. split; [discriminate | now constructor].
        -- exists ([c] :: w :: ws').
           apply (Tokens_token (sp := []) (w := [c])
                    (rest := (d :: sp) ++ w ++ rest));
             try assumption; [constructor |].
           right. exists d, (sp ++ w ++ rest). split; [reflexivity |].
           now inversion Hsp.
Qed.

(** The count made by [saveNote] is the number of tokens of the text. *)
Lemma countWords_Tokens (s : jsstring) (ws : list jsstring) :
  Tokens s ws -> countWords s = List.length ws.
Proof.
  intros H. unfold countWords, split_ws.
  now rewrite split_from_start, (split_from_tokens _ _ H).
Qed.

(* ================================================================== *)
(** ** The setters and the effects *)
(* ================================================================== *)

Lemma notes_setNotes f st : notes (setNotes f st) = f (notes st).
Proof. unfold setNotes, notesEffect. simpl. now destruct (_ && _). Qed.

Lemma folders_setNotes f st : folders (setNotes f st) = folders st.
Proof. unfold setNotes, notesEffect. simpl. now destruct (_ && _). Qed.

Lemma isLoading_setNotes f st : isLoading (setNotes f st) = isLoading st.
Proof. unfold setNotes, notesEffect. simpl. now destruct (_ && _). Qed.

Lemma ls_folders_setNotes f st : ls_folders (setNotes f st) = ls_folders st.
Proof. unfold setNotes, notesEffect. simpl. now destruct (_ && _). Qed.

Lemma notes_setFolders f st : notes (setFolders f st) = notes st.
Proof. unfold setFolders, foldersEffect. simpl. now destruct (negb _). Qed.

Lemma folders_setFolders f st : folders (setFolders f st) = f (folders st).
Proof. unfold setFolders, foldersEffect. simpl. now destruct (negb _). Qed.

Lemma isLoading_setFolders f st : isLoading (setFolders f st) = isLoading st.
Proof. unfold setFolders, foldersEffect. simpl. now destruct (negb _). Qed.

Lemma ls_notes_setFolders f st : ls_notes (setFolders f st) = ls_notes st.
Proof. unfold setFolders, foldersEffect. simpl. now destruct (negb _). Qed.

(** Once loading is over, [setNotes] writes every non-empty collection. *)
Lemma ls_notes_setNotes f st :
  isLoading st = false ->
  ls_notes (setNotes f st)
  = match f (notes st) with
    | [] => ls_notes st
    | _ :: _ => Stored (f (notes st))
    end.
Proof.
  intros Hl. unfold setNotes, notesEffect. simpl. rewrite Hl. simpl.
  now destruct (f (notes st)).
Qed.

(** Once loading is over, [setFolders] writes every collection. *)
Lemma ls_folders_setFolders f st :
  isLoading st = false ->
  ls_folders (setFolders f st) = Stored (f (folders st)).
Proof.
  intros Hl. unfold setFolders, foldersEffect. simpl. now rewrite Hl.
Qed.

(* ================================================================== *)
(** ** Identifiers *)
(* ================================================================== *)

Lemma lit_inj (s t : string) : lit s = lit t -> s = t.
Proof.
  unfold lit. intros H.
  rewrite <- (string_of_list_ascii_of_string s),
          <- (string_of_list_ascii_of_string t).
  f_equal. revert H.
  generalize (list_ascii_of_string s) (list_ascii_of_string t).
  induction l as [| a l IH]; intros [| b m]; simpl; try discriminate.
  - reflexivity.
  - intros H. injection H as Hab Hlm. f_equal; [| now apply IH].
    now rewrite <- (ascii_N_embedding a), <- (ascii_N_embedding b), Hab.
Qed.

(** Two numbers print alike only when they are equal. *)
Lemma number_toString_inj (a b : Z) :
  number_toString a = number_toString b -> a = b.
Proof.
  unfold number_toString. intros H. apply lit_inj in H.
  apply DecimalZ.to_int_inj.
  apply (f_equal NilEmpty.int_of_string) in H.
  rewrite !NilEmpty.isi in H. now injection H.
Qed.

(* ================================================================== *)
(** ** [saveNote]: the creation path *)
(* ================================================================== *)

Lemma truthy_or_str (s : option jsstring) (d : jsstring) :
  Some (or_str s d) = if truthy s then s else Some d.
Proof. destruct s as [[| c r] |]; reflexivity. Qed.

Lemma saveNote_new_eq now stamp noteData st :
  truthy (Note.id noteData) = false ->
  saveNote now stamp noteData st
  = (newNote now stamp noteData,
     setNotes (fun prev => newNote now stamp noteData :: prev) st).
Proof. intros H. unfold saveNote. now rewrite H. Qed.

Lemma saveNote_update_eq now stamp noteData st :
  truthy (Note.id noteData) = true ->
  saveNote now stamp noteData st
  = (updatedNote now noteData,
     setNotes
       (fun prev =>
          map (fun note =>
                 if strict_eq (Note.id note) (Note.id noteData)
                 then updatedNote now noteData else note) prev) st).
Proof. intros H. unfold saveNote. now rewrite H. Qed.

Lemma getNotesInFolder_all st : getNotesInFolder (lit "all") st = notes st.
Proof. unfold getNotesInFolder. now rewrite str_eqb_refl. Qed.

Lemma getNotesInFolder_cons_in fid n st st' :
  notes st' = n :: notes st -> Note.folder n = Some fid ->
  getNotesInFolder fid st' = n :: getNotesInFolder fid st.
Proof.
  intros Hn Hf. unfold getNotesInFolder. rewrite Hn.
  destruct (str_eqb fid (lit "all")); [reflexivity |].
  cbn [filter]. unfold inFolder at 1. rewrite Hf.
  now rewrite (proj2 (strict_eq_true (Some fid) (Some fid)) eq_refl).
Qed.

(** C1, as the code has it.  A [saveNote] whose data carries no identifier
    ([undefined] or the empty string) returns a note whose identifier is
    the decimal print of the clock reading [Date.now()], so that two
    creations get the same identifier exactly when their clock readings
    are equal; its title is the given one, or "Untitled" when that is
    empty or missing; its tags are the given ones, or none; its folder is
    the given one, or "quick-notes"; both timestamps are the clock reading
    of the call; its word count is the number of white-space-delimited
    tokens of its body.  The note is put in front of the collection, so
    after a second creation the listing of all notes, and of any folder
    that holds both, shows the later note first. *)
Theorem saveNote_create
  (now stamp now2 stamp2 : Z) (noteData noteData2 : Note.t) (st : Store) :
  truthy (Note.id noteData) = false ->
  truthy (Note.id noteData2) = false ->
  let r1 := saveNote now stamp noteData st in
  let r2 := saveNote now2 stamp2 noteData2 (snd r1) in
  Note.id (fst r1) = Some (number_toString stamp)
  /\ (Note.id (fst r2) = Note.id (fst r1) <-> stamp2 = stamp)
  /\ Note.title (fst r1)
     = (if truthy (Note.title noteData) then Note.title noteData
        else Some (lit "Untitled"))
  /\ Note.tags (fst r1)
     = Some (match Note.tags noteData with Some ts => ts | None => [] end)
  /\ Note.folder (fst r1)
     = (if truthy (Note.folder noteData) then Note.folder noteData
        else Some (lit "quick-notes"))
  /\ Note.createdAt (fst r1) = Some (Time now)
  /\ Note.updatedAt (fst r1) = Some (Time now)
  /\ (exists body ws,
        Note.content (fst r1) = Some body /\ Tokens body ws
        /\ Note.wordCount (fst r1) = Some (List.length ws))
  /\ notes (snd r1) = fst r1 :: notes st
  /\ getNotesInFolder (lit "all") (snd r2) = fst r2 :: fst r1 :: notes st
  /\ (forall fid,
        Note.folder (fst r1) = Some fid -> Note.folder (fst r2) = Some fid ->
        getNotesInFolder fid (snd r2)
        = fst r2 :: fst r1 :: getNotesInFolder fid st).
Proof.
  intros H1 H2 r1 r2. subst r1 r2.
  rewrite (saveNote_new_eq now stamp noteData st H1). cbn [fst snd].
  rewrite (saveNote_new_eq now2 stamp2 noteData2 _ H2). cbn [fst snd].
  assert (Hn1 : notes (setNotes
                         (fun prev => newNote now stamp noteData :: prev) st)
                = newNote now stamp noteData :: notes st)
    by apply notes_setNotes.
  repeat split.
  - cbn. intros H. injection H as H. now apply number_toString_inj.
  - intros ->. reflexivity.
  - cbn. apply truthy_or_str.
  - cbn. apply truthy_or_str.
  - destruct (Tokens_total (or_str (Note.content noteData) [])) as [ws Hws].
    exists (or_str (Note.content noteData) []), ws. cbn.
    repeat split; [assumption |]. now rewrite (countWords_Tokens _ _ Hws).
  - exact Hn1.
  - rewrite getNotesInFolder_all, notes_setNotes, Hn1. reflexivity.
  - intros fid Hf1 Hf2.
    rewrite (getNotesInFolder_cons_in fid (newNote now2 stamp2 noteData2)
               (setNotes (fun prev => newNote now stamp noteData :: prev) st));
      [| apply notes_setNotes | exact Hf2].
    now rewrite (getNotesInFolder_cons_in fid _ st _ Hn1 Hf1).
Qed.

(** A creation at clock 2000 on a first run, followed by a second one at
    clock 2001. *)
Lemma saveNote_create_witness :
  truthy (Note.id Note.empty) = false
  /\ notes (snd (saveNote 2000 2000 Note.empty firstRun))
     = fst (saveNote 2000 2000 Note.empty firstRun) :: notes firstRun.
Proof.
  split; [reflexivity |].
  pose proof (saveNote_create 2000 2000 2001 2001 Note.empty Note.empty
                firstRun eq_refl eq_refl) as H.
  cbv zeta in H.
  destruct H as (_ & _ & _ & _ & _ & _ & _ & _ & H & _).
  exact H.
Defined.

(** Two creations within the same millisecond: the second note gets the
    identifier the first one already carries in the collection. *)
Lemma saveNote_id_not_fresh :
  truthy (Note.id Note.empty) = false
  /\ ~ fresh_id
         (fst (saveNote 2000 2000 Note.empty
                 (snd (saveNote 2000 2000 Note.empty firstRun))))
         (snd (saveNote 2000 2000 Note.empty firstRun)).
Proof.
  split; [reflexivity |].
  unfold fresh_id. intros H. apply H.
  rewrite !saveNote_new_eq by reflexivity. cbn [fst snd].
  rewrite notes_setNotes. left. reflexivity.
Qed.

(* ================================================================== *)
(** ** [saveNote]: the update path *)
(* ================================================================== *)

(** Whatever the collection holds, the update path returns the given data
    with a new update time and word count: nothing is read from the stored
    note. *)
Lemma saveNote_update_result now stamp noteData st :
  truthy (Note.id noteData) = true ->
  fst (saveNote now stamp noteData st) = updatedNote now noteData.
Proof. intros H. now rewrite saveNote_update_eq. Qed.

(** C2 at [{ id: "1", content: "hello world" }] on a first run.  The
    stored welcome note has a title, tags, a folder and a creation time;
    the note returned for the update, which replaces it in the collection,
    has none of them.  Its identifier, body, update time and word count
    are as the claim says. *)
Theorem saveNote_update_drops_fields :
  notes firstRun = [welcomeNote 1000 1000]
  /\ notes (snd (saveNote 2000 2000 editBody firstRun))
     = [fst (saveNote 2000 2000 editBody firstRun)]
  /\ Note.id (fst (saveNote 2000 2000 editBody firstRun)) = Some (lit "1")
  /\ Note.content (fst (saveNote 2000 2000 editBody firstRun))
     = Some (lit "hello world")
  /\ Note.updatedAt (fst (saveNote 2000 2000 editBody firstRun))
     = Some (Time 2000)
  /\ Note.wordCount (fst (saveNote 2000 2000 editBody firstRun)) = Some 2%nat
  /\ Note.title (fst (saveNote 2000 2000 editBody firstRun)) = None
  /\ Note.tags (fst (saveNote 2000 2000 editBody firstRun)) = None
  /\ Note.folder (fst (saveNote 2000 2000 editBody firstRun)) = None
  /\ Note.createdAt (fst (saveNote 2000 2000 editBody firstRun)) = None.
Proof.
  rewrite saveNote_update_eq by reflexivity. cbn [fst snd].
  rewrite notes_setNotes.
  repeat split; reflexivity.
Qed.

(** The creation path stamps both times with one clock reading. *)
Lemma newNote_in_order now stamp noteData :
  stamped_in_order (newNote now stamp noteData).
Proof. unfold stamped_in_order. cbn. apply Z.leb_refl. Qed.

(** Every save stamps the update time with the clock reading of the call,
    on either path. *)
Lemma saveNote_updatedAt now stamp noteData st :
  Note.updatedAt (fst (saveNote now stamp noteData st)) = Some (Time now).
Proof. unfold saveNote. now destruct (negb _). Qed.

(** C3 at the editor's save of the welcome note on a first run.  Before
    the save the only note has its timestamps in order; after it the only
    note has an update time and no creation time, so the comparison
    [updatedAt >= createdAt] is false. *)
Theorem saveNote_update_breaks_stamp_order :
  reachable 1000 firstRun
  /\ Forall stamped_in_order (notes firstRun)
  /\ reachable 1000 (after 1000 (SaveNote 2000 2000 editorSave) firstRun)
  /\ exists n,
       notes (after 1000 (SaveNote 2000 2000 editorSave) firstRun) = [n]
       /\ Note.updatedAt n = Some (Time 2000)
       /\ Note.createdAt n = None
       /\ ~ stamped_in_order n.
Proof.
  assert (R : reachable 1000 firstRun) by apply reach_load.
  split; [exact R |].
  split; [repeat constructor |].
  split; [now apply reach_call |].
  exists (updatedNote 2000 editorSave).
  cbn [after]. rewrite saveNote_update_eq by reflexivity. cbn [snd].
  rewrite notes_setNotes.
  repeat split; try reflexivity.
  unfold stamped_in_order. cbn. discriminate.
Qed.

Lemma map_unmatched {A} (f : A -> bool) (u : A) (l : list A) :
  (forall x, In x l -> f x = false) ->
  map (fun x => if f x then u else x) l = l.
Proof.
  induction l as [| x l IH]; intros H; simpl; [reflexivity |].
  rewrite (H x (or_introl eq_refl)), IH; [reflexivity |].
  intros y Hy. apply H. now right.
Qed.

(** C4.  A [saveNote] whose data carries an identifier that no note of the
    collection has returns (there is no failing case) the record built
    from the data, and leaves the note collection and the folder
    collection as they were; the returned record is not in the
    collection. *)
Theorem saveNote_unmatched
  (now stamp : Z) (noteData : Note.t) (st : Store) :
  truthy (Note.id noteData) = true ->
  (forall n, In n (notes st) -> Note.id n <> Note.id noteData) ->
  fst (saveNote now stamp noteData st) = updatedNote now noteData
  /\ notes (snd (saveNote now stamp noteData st)) = notes st
  /\ folders (snd (saveNote now stamp noteData st)) = folders st
  /\ ~ In (fst (saveNote now stamp noteData st))
         (notes (snd (saveNote now stamp noteData st))).
Proof.
  intros Hid Hnone.
  rewrite saveNote_update_eq by assumption. cbn [fst snd].
  rewrite notes_setNotes, folders_setNotes.
  rewrite map_unmatched.
  - repeat split. intros Hin. now apply (Hnone _ Hin).
  - intros n Hn. apply strict_eq_false. now apply Hnone.
Qed.

Lemma saveNote_unmatched_witness :
  truthy (Note.id createdByCaller) = true
  /\ notes (snd (saveNote 3000 3000 createdByCaller firstRun))
     = notes firstRun.
Proof.
  split; [reflexivity |].
  apply (saveNote_unmatched 3000 3000 createdByCaller firstRun eq_refl).
  intros n [<- | []]. discriminate.
Defined.

(* ================================================================== *)
(** ** Selections and subsequences *)
(* ================================================================== *)

Lemma filter_Selection {A} (f : A -> bool) (P : A -> Prop) (l : list A) :
  (forall x, In x l -> (f x = true <-> P x)) -> Selection P (filter f l) l.
Proof.
  induction l as [| x l IH]; intros H; simpl; [constructor |].
  assert (IH' : Selection P (filter f l) l).
  { apply IH. intros y Hy. apply H. now right. }
  destruct (f x) eqn:Hx.
  - apply Selection_keep; [| exact IH']. now apply H; [left |].
  - apply Selection_drop; [| exact IH'].
    intros HP. apply H in HP; [congruence | now left].
Qed.

Lemma Selection_Subseq {A} (P : A -> Prop) (l m : list A) :
  Selection P l m -> Subseq l m.
Proof. induction 1; now constructor. Qed.

Lemma Subseq_refl {A} (l : list A) : Subseq l l.
Proof. induction l; now constructor. Qed.

Lemma filter_Subseq {A} (f : A -> bool) (l : list A) : Subseq (filter f l) l.
Proof.
  apply (Selection_Subseq (fun x => f x = true)).
  apply filter_Selection. tauto.
Qed.

(* ================================================================== *)
(** ** [deleteFolder] and [deleteNote] *)
(* ================================================================== *)

Lemma default_ids_eq boot :
  default_ids boot
  = [lit "all"; lit "quick-notes"; lit "meetings"; lit "ideas"; lit "tasks"].
Proof. reflexivity. Qed.

Lemma is_default_spec boot folderId :
  existsb (fun f => str_eqb (Folder.id f) folderId) (DEFAULT_FOLDERS boot)
  = true
  <-> In folderId (default_ids boot).
Proof.
  unfold default_ids. rewrite existsb_exists, in_map_iff.
  split; intros [f [H1 H2]]; exists f.
  - now apply str_eqb_true in H2.
  - split; [assumption |]. now apply str_eqb_true.
Qed.

Lemma deleteFolder_default boot folderId st :
  In folderId (default_ids boot) -> deleteFolder boot folderId st = st.
Proof.
  intros H. unfold deleteFolder.
  now rewrite (proj2 (is_default_spec boot folderId) H).
Qed.

Lemma deleteFolder_other boot folderId st :
  ~ In folderId (default_ids boot) ->
  deleteFolder boot folderId st
  = setFolders
      (fun prev =>
         filter (fun folder => negb (str_eqb (Folder.id folder) folderId))
           prev)
      (setNotes (fun prev => map (moveOut folderId) prev) st).
Proof.
  intros H. unfold deleteFolder.
  destruct (existsb _ _) eqn:E; [| reflexivity].
  now apply is_default_spec in E.
Qed.

Lemma moved_with_folder (f : jsstring) (n : Note.t) :
  moved f n (Note.with_folder n f).
Proof. repeat split. Qed.

Section Reassign.
Variable folderId : jsstring.
Hypothesis not_quick : folderId <> lit "quick-notes".

Lemma moveOut_pointwise (l : list Note.t) :
  Forall2
    (fun n n' =>
       (Note.folder n = Some folderId /\ moved (lit "quick-notes") n n')
       \/ (Note.folder n <> Some folderId /\ n' = n))
    l (map (moveOut folderId) l).
Proof.
  induction l as [| n l IH]; simpl; constructor; [| exact IH].
  unfold moveOut, inFolder. destruct (strict_eq _ _) eqn:E.
  - left. split; [now apply strict_eq_true | apply moved_with_folder].
  - right. split; [now apply strict_eq_false | reflexivity].
Qed.

Lemma moveOut_cases (n : Note.t) :
  (inFolder folderId n = true
   /\ moveOut folderId n = Note.with_folder n (lit "quick-notes")
   /\ inFolder (lit "quick-notes") n = false)
  \/ (inFolder folderId n = false /\ moveOut folderId n = n).
Proof.
  unfold moveOut, inFolder.
  destruct (strict_eq (Note.folder n) (Some folderId)) eqn:E.
  - left. repeat split. apply strict_eq_true in E. rewrite E.
    apply strict_eq_false. congruence.
  - right. now split.
Qed.

Lemma inFolder_with_folder (f g : jsstring) (n : Note.t) :
  inFolder f (Note.with_folder n g) = str_eqb g f.
Proof.
  unfold inFolder. cbn [Note.with_folder Note.folder].
  destruct (str_eqb g f) eqn:E.
  - apply str_eqb_true in E. subst. now apply strict_eq_true.
  - apply str_eqb_false in E. apply strict_eq_false. congruence.
Qed.

Lemma moveOut_empties (l : list Note.t) :
  filter (inFolder folderId) (map (moveOut folderId) l) = [].
Proof.
  induction l as [| n l IH]; cbn [map filter]; [reflexivity |].
  rewrite IH.
  destruct (moveOut_cases n) as [(_ & Hr & _) | (Hf & Hr)]; rewrite Hr.
  - rewrite inFolder_with_folder.
    now rewrite (proj2 (str_eqb_false _ _) (not_eq_sym not_quick)).
  - now rewrite Hf.
Qed.

Lemma moveOut_fills (l : list Note.t) :
  List.length (filter (inFolder (lit "quick-notes")) (map (moveOut folderId) l))
  = (List.length (filter (inFolder (lit "quick-notes")) l)
     + List.length (filter (inFolder folderId) l))%nat.
Proof.
  induction l as [| n l IH]; cbn [map filter]; [reflexivity |].
  destruct (moveOut_cases n) as [(Hf & Hr & Hq) | (Hf & Hr)];
    rewrite Hr, Hf.
  - rewrite inFolder_with_folder, str_eqb_refl, Hq.
    cbn [List.length]. rewrite IH. lia.
  - destruct (inFolder (lit "quick-notes") n);
      cbn [List.length]; rewrite IH; reflexivity.
Qed.

End Reassign.

(** C5.  For a folder identifier outside the default set, [deleteFolder]
    rewrites the note collection position by position: a note of that
    folder is moved to "quick-notes" with every other property kept, and
    any other note is left as it is.  So "quick-notes" gains as many notes
    as the folder held and the folder holds none; the folder collection
    becomes its folders with another identifier, in their order.  A
    [deleteNote] whose identifier no note has leaves the note collection,
    and with it its size, unchanged; it has no failing case. *)
Theorem deleteFolder_reassigns
  (boot : Z) (folderId noteId : jsstring) (st : Store) :
  ~ In folderId (default_ids boot) ->
  (forall n, In n (notes st) -> Note.id n <> Some noteId) ->
  Forall2
    (fun n n' =>
       (Note.folder n = Some folderId /\ moved (lit "quick-notes") n n')
       \/ (Note.folder n <> Some folderId /\ n' = n))
    (notes st) (notes (deleteFolder boot folderId st))
  /\ List.length
       (getNotesInFolder (lit "quick-notes") (deleteFolder boot folderId st))
     = (List.length (getNotesInFolder (lit "quick-notes") st)
        + List.length (getNotesInFolder folderId st))%nat
  /\ getNotesInFolder folderId (deleteFolder boot folderId st) = []
  /\ Selection (fun f => Folder.id f <> folderId)
       (folders (deleteFolder boot folderId st)) (folders st)
  /\ notes (deleteNote noteId st) = notes st
  /\ List.length (notes (deleteNote noteId st)) = List.length (notes st).
Proof.
  intros Hnd Habsent.
  assert (Hq : folderId <> lit "quick-notes").
  { intros ->. apply Hnd. rewrite default_ids_eq. simpl. tauto. }
  assert (Ha : str_eqb folderId (lit "all") = false).
  { apply str_eqb_false. intros ->. apply Hnd. rewrite default_ids_eq.
    simpl. tauto. }
  assert (Hdel : notes (deleteNote noteId st) = notes st).
  { unfold deleteNote. rewrite notes_setNotes.
    apply forallb_filter_id. apply forallb_forall. intros n Hn.
    apply negb_true_iff, strict_eq_false. now apply Habsent. }
  rewrite (deleteFolder_other boot folderId st Hnd).
  unfold getNotesInFolder.
  rewrite Ha, (proj2 (str_eqb_false _ _) (not_eq_sym
                 (fun H : lit "all" = lit "quick-notes" =>
                    ltac:(discriminate H)))).
  rewrite notes_setFolders, notes_setNotes, folders_setFolders,
    folders_setNotes.
  repeat split.
  - apply moveOut_pointwise.
  - apply (moveOut_fills folderId Hq).
  - apply (moveOut_empties folderId Hq).
  - apply filter_Selection. intros f _.
    rewrite negb_true_iff. apply str_eqb_false.
  - exact Hdel.
  - now rewrite Hdel.
Qed.

(** C6.  For an identifier of the default set, of which "all" is one,
    [deleteFolder] returns the state it was given: the folder collection,
    the note collection and everything else are unchanged, and there is no
    failing case. *)
Theorem deleteFolder_refuses_default
  (boot : Z) (folderId : jsstring) (st : Store) :
  In folderId (default_ids boot) ->
  In (lit "all") (default_ids boot)
  /\ deleteFolder boot folderId st = st
  /\ folders (deleteFolder boot folderId st) = folders st
  /\ notes (deleteFolder boot folderId st) = notes st.
Proof.
  intros H. rewrite (deleteFolder_default boot folderId st H).
  repeat split. rewrite default_ids_eq. now left.
Qed.

(* ================================================================== *)
(** ** [searchNotes] and [getNotesInFolder] *)
(* ================================================================== *)

Section Search.
Context {rt : JsRuntime}.

Lemma noteMatches_spec (term : jsstring) (n : Note.t) :
  has_text n = true ->
  exists b, noteMatches term n = Ok b /\ (b = true <-> Matches term n).
Proof.
  destruct n as [i [t |] [c |] [ts |] f ca ua w s a]; try discriminate.
  intros _. unfold noteMatches, Matches. cbn.
  destruct (includes (toLowerCase t) term) eqn:Et.
  { exists true. split; [reflexivity |]. split; [intros _ | reflexivity].
    left. exists t. split; [reflexivity |]. now apply includes_spec. }
  destruct (includes (toLowerCase c) term) eqn:Ec.
  { exists true. split; [reflexivity |]. split; [intros _ | reflexivity].
    right; left. exists c. split; [reflexivity |]. now apply includes_spec. }
  destruct (existsb (fun tag => includes (toLowerCase tag) term) ts) eqn:Es.
  { exists true. split; [reflexivity |]. split; [intros _ | reflexivity].
    apply existsb_exists in Es. destruct Es as [tag [Hin Htag]].
    right; right; left. exists ts, tag.
    repeat split; [assumption |]. now apply includes_spec. }
  eexists. split; [reflexivity |]. split.
  - intros Hb. right; right; right.
    destruct s as [[| d s] |]; try discriminate.
    exists (d :: s). split; [reflexivity |]. now apply includes_spec.
  - intros [[t' [Ht Hs]] | [[c' [Hc Hs]] | [[ts' [tag [Hts [Hin Hs]]]]
                                            | [s' [Hsum Hs]]]]].
    + injection Ht as Ht. subst t'. apply includes_spec in Hs. congruence.
    + injection Hc as Hc. subst c'. apply includes_spec in Hs. congruence.
    + injection Hts as Hts. subst ts'. apply includes_spec in Hs.
      assert (existsb (fun tag => includes (toLowerCase tag) term) ts = true)
        by (apply existsb_exists; now exists tag).
      congruence.
    + subst s. destruct s' as [| d s'].
      * rewrite toLowerCase_empty in Hs.
        destruct Hs as [pre [post Hs]].
        destruct pre; [| discriminate]. destruct term; [| discriminate].
        rewrite includes_empty in Et. discriminate.
      * now apply includes_spec.
Qed.

Lemma well_typed_has_text (n : Note.t) :
  Note.well_typed n = true -> has_text n = true.
Proof.
  unfold Note.well_typed, has_text.
  destruct (Note.title n), (Note.content n), (Note.tags n); cbn;
    rewrite ?andb_false_r; auto.
Qed.

Lemma filterM_Subseq {A} (p : A -> result bool) (l r : list A) :
  filterM p l = Ok r -> Subseq r l.
Proof.
  revert r. induction l as [| x l IH]; simpl; intros r H.
  - injection H as <-. constructor.
  - destruct (p x) as [b |]; [| discriminate]. simpl in H.
    destruct (filterM p l) as [r' |]; [| discriminate]. simpl in H.
    injection H as <-. destruct b; constructor; now apply IH.
Qed.

Lemma filterM_Selection (term : jsstring) (l : list Note.t) :
  Forall (fun n => has_text n = true) l ->
  exists r, filterM (noteMatches term) l = Ok r
            /\ Selection (Matches term) r l.
Proof.
  induction 1 as [| n l Hn _ [r [Hr Hsel]]]; simpl.
  - exists []. split; [reflexivity | constructor].
  - destruct (noteMatches_spec term n Hn) as [b [Hb Hiff]].
    rewrite Hb, Hr. simpl. destruct b.
    + exists (n :: r). split; [reflexivity |].
      apply Selection_keep; [now apply Hiff | assumption].
    + exists r. split; [reflexivity |].
      apply Selection_drop; [| assumption].
      intros HM. apply Hiff in HM. discriminate.
Qed.

Lemma blank_dec (q : jsstring) : {blank q} + {~ blank q}.
Proof.
  destruct (trim q) as [| c r] eqn:E.
  - left. now apply trim_nil.
  - right. intros H. apply trim_nil in H. congruence.
Qed.

Lemma searchNotes_blank (query : jsstring) (st : Store) :
  blank query -> searchNotes query st = Ok (notes st).
Proof.
  intros H. unfold searchNotes. now rewrite (proj2 (trim_nil query) H).
Qed.

Lemma searchNotes_term (query : jsstring) (st : Store) :
  ~ blank query ->
  searchNotes query st
  = filterM (noteMatches (toLowerCase query)) (notes st).
Proof.
  intros H. unfold searchNotes. destruct (trim query) eqn:E; [| reflexivity].
  now apply trim_nil in E.
Qed.

End Search.

(** C7, as the code has it.  On a collection whose notes have a title, a
    body and tags, [searchNotes] returns: for a query that is empty or made of white
    space only, the collection itself; for any other query, exactly the
    notes, in their order, for which the lowercased query is a substring
    of the lowercased title, of the lowercased body, of some lowercased
    tag, or of the lowercased summary when the note has one. *)
Theorem searchNotes_selects
  (rt : JsRuntime) (query : jsstring) (st : Store) :
  Forall (fun n => has_text n = true) (notes st) ->
  (blank query /\ searchNotes query st = Ok (notes st))
  \/ (~ blank query
      /\ exists l,
           searchNotes query st = Ok l
           /\ Selection (Matches (toLowerCase query)) l (notes st)).
Proof.
  intros Hwt. destruct (blank_dec query) as [Hb | Hb].
  - left. split; [assumption | now apply searchNotes_blank].
  - right. split; [assumption |]. rewrite searchNotes_term by assumption.
    now apply filterM_Selection.
Qed.

(* ================================================================== *)
(** ** [categorizeNote] *)
(* ================================================================== *)

Lemma mentions_three (text a b c : jsstring) :
  includes text a || includes text b || includes text c = true
  <-> mentions text [a; b; c].
Proof.
  unfold mentions. rewrite !orb_true_iff, !includes_spec. split.
  - intros [[H | H] | H]; eexists; (split; [| exact H]); simpl; tauto.
  - intros [k [[<- | [<- | [<- | []]]] H]]; tauto.
Qed.

Lemma not_mentions_three (text a b c : jsstring) :
  includes text a || includes text b || includes text c = false
  <-> ~ mentions text [a; b; c].
Proof.
  rewrite <- mentions_three.
  destruct (includes text a || includes text b || includes text c);
    split; congruence.
Qed.

Lemma categorizeNote_agenda (rt : JsRuntime) :
  categorizeNote (lit "Let's discuss the meeting agenda") = lit "meetings".
Proof.
  unfold categorizeNote. rewrite toLowerCase_ascii by reflexivity.
  reflexivity.
Qed.

(** C8.  [categorizeNote] tries its three keyword rules on the lowercased
    text in a fixed order and the first that applies decides: a meeting
    word gives "meetings"; otherwise an idea word gives "ideas"; otherwise
    a task word gives "tasks"; otherwise the result is "quick-notes".  The
    result is always a default folder identifier other than "all", and
    "Let's discuss the meeting agenda" gives "meetings". *)
Theorem categorizeNote_rules
  (rt : JsRuntime) (boot : Z) (content : jsstring) :
  ((mentions (toLowerCase content) meetingWords
    /\ categorizeNote content = lit "meetings")
   \/ (~ mentions (toLowerCase content) meetingWords
       /\ mentions (toLowerCase content) ideaWords
       /\ categorizeNote content = lit "ideas")
   \/ (~ mentions (toLowerCase content) meetingWords
       /\ ~ mentions (toLowerCase content) ideaWords
       /\ mentions (toLowerCase content) taskWords
       /\ categorizeNote content = lit "tasks")
   \/ (~ mentions (toLowerCase content) meetingWords
       /\ ~ mentions (toLowerCase content) ideaWords
       /\ ~ mentions (toLowerCase content) taskWords
       /\ categorizeNote content = lit "quick-notes"))
  /\ In (categorizeNote content)
       [lit "meetings"; lit "ideas"; lit "tasks"; lit "quick-notes"]
  /\ In (categorizeNote content) (default_ids boot)
  /\ categorizeNote (lit "Let's discuss the meeting agenda")
     = lit "meetings".
Proof.
  assert (Hex := categorizeNote_agenda rt).
  unfold categorizeNote at 1 2 3 4 5 6.
  unfold meetingWords, ideaWords, taskWords.
  set (text := toLowerCase content).
  destruct (includes text (lit "meeting") || includes text (lit "agenda")
            || includes text (lit "discussed")) eqn:Em.
  { apply mentions_three in Em.
    repeat split; [now left | simpl; tauto
                  | rewrite default_ids_eq; simpl; tauto | exact Hex]. }
  apply not_mentions_three in Em.
  destruct (includes text (lit "idea") || includes text (lit "brainstorm")
            || includes text (lit "concept")) eqn:Ei.
  { apply mentions_three in Ei.
    repeat split; [right; left; tauto | simpl; tauto
                  | rewrite default_ids_eq; simpl; tauto | exact Hex]. }
  apply not_mentions_three in Ei.
  destruct (includes text (lit "todo") || includes text (lit "task")
            || includes text (lit "action item")) eqn:Et.
  { apply mentions_three in Et.
    repeat split; [right; right; left; tauto | simpl; tauto
                  | rewrite default_ids_eq; simpl; tauto | exact Hex]. }
  apply not_mentions_three in Et.
  repeat split; [right; right; right; tauto | simpl; tauto
                | rewrite default_ids_eq; simpl; tauto | exact Hex].
Qed.

(** C10, as the code has it.  [getNotesInFolder] returns a subsequence of
    the note collection (some notes left out, none added, repeated or
    moved), and the collection itself for "all".  Whenever [searchNotes]
    returns, it returns a subsequence of the collection too, and it
    returns on every collection whose notes have a title, a body and
    tags: it throws only on a collection with a note that lacks one of
    them.  The state after either call is the state before it. *)
Theorem queries_return_subsequences
  (rt : JsRuntime) (boot : Z) (folderId query : jsstring) (st : Store) :
  Subseq (getNotesInFolder folderId st) (notes st)
  /\ getNotesInFolder (lit "all") st = notes st
  /\ match searchNotes query st with
     | Ok l => Subseq l (notes st)
     | TypeError => ~ Forall (fun n => has_text n = true) (notes st)
     end
  /\ after boot (GetNotesInFolder folderId) st = st
  /\ after boot (SearchNotes query) st = st.
Proof.
  split; [| split; [apply getNotesInFolder_all | split; [| now split]]].
  - unfold getNotesInFolder. destruct (str_eqb folderId (lit "all")).
    + apply Subseq_refl.
    + apply filter_Subseq.
  - destruct (blank_dec query) as [Hb | Hb].
    + rewrite searchNotes_blank by assumption. apply Subseq_refl.
    + rewrite searchNotes_term by assumption.
      destruct (filterM _ (notes st)) as [l |] eqn:E.
      * now apply filterM_Subseq in E.
      * intros Hwt.
        destruct (filterM_Selection (toLowerCase query) _ Hwt) as [l [H _]].
        congruence.
Qed.

(* ================================================================== *)
(** ** The durable mirror *)
(* ================================================================== *)

Lemma setIsLoading_persisted (st : Store) : persisted (setIsLoading false st).
Proof.
  unfold persisted, setIsLoading, foldersEffect, notesEffect. cbn.
  destruct (notes st) as [| n l]; cbn; repeat split; auto.
Qed.

Lemma loadData_persisted (tc tu : Z) (st : Store) :
  persisted (loadData tc tu st).
Proof.
  unfold loadData.
  destruct (ls_notes st); try apply setIsLoading_persisted;
    destruct (ls_folders _); apply setIsLoading_persisted.
Qed.

Lemma setNotes_persisted f (st : Store) :
  persisted st -> persisted (setNotes f st).
Proof.
  intros (Hl & Hf & _). unfold persisted.
  rewrite isLoading_setNotes, ls_folders_setNotes, folders_setNotes,
    notes_setNotes, ls_notes_setNotes by assumption.
  repeat split; try assumption.
  destruct (f (notes st)); [now left | now right].
Qed.

Lemma setFolders_persisted f (st : Store) :
  persisted st -> persisted (setFolders f st).
Proof.
  intros (Hl & _ & Hn). unfold persisted.
  rewrite isLoading_setFolders, notes_setFolders, ls_notes_setFolders,
    folders_setFolders, ls_folders_setFolders by assumption.
  repeat split; assumption.
Qed.

Lemma after_persisted (boot : Z) (c : Call) (st : Store) :
  persisted st -> persisted (after boot c st).
Proof.
  intros H. destruct c; cbn [after]; try assumption.
  - unfold saveNote. destruct (negb _); now apply setNotes_persisted.
  - now apply setNotes_persisted.
  - now apply setFolders_persisted.
  - unfold deleteFolder. destruct (existsb _ _); [assumption |].
    now apply setFolders_persisted, setNotes_persisted.
  - destruct stored; exact H.
Qed.

(** X26.  In every state the hook reaches, loading is over, the folder
    entry of local storage holds the current folder collection, and the
    note entry holds the current note collection whenever that collection
    is not empty. *)
Theorem reachable_persisted (boot : Z) (st : Store) :
  reachable boot st ->
  isLoading st = false
  /\ ls_folders st = Stored (folders st)
  /\ (notes st = [] \/ ls_notes st = Stored (notes st)).
Proof.
  induction 1 as [n f s tc tu | st c _ IH].
  - apply loadData_persisted.
  - now apply after_persisted.
Qed.

(** After a creation on a first run. *)
Lemma reachable_persisted_witness :
  reachable 1000 (after 1000 (SaveNote 2000 2000 Note.empty) firstRun)
  /\ ls_folders (after 1000 (SaveNote 2000 2000 Note.empty) firstRun)
     = Stored (folders (after 1000 (SaveNote 2000 2000 Note.empty) firstRun)).
Proof.
  assert (R : reachable 1000
                (after 1000 (SaveNote 2000 2000 Note.empty) firstRun)).
  { apply reach_call. apply reach_load. }
  split; [exact R |].
  apply (reachable_persisted 1000 _ R).
Defined.

(** C9 at the deletion of the only note of a first run.  The state is
    one the hook reaches, with loading over; the note collection is empty
    while the notes entry of local storage still holds the deleted note,
    so the mirror does not equal the collection, and a reload brings the
    deleted note back. *)
Theorem deleteNote_last_not_mirrored :
  reachable 1000 (after 1000 (DeleteNote (lit "1")) firstRun)
  /\ isLoading (after 1000 (DeleteNote (lit "1")) firstRun) = false
  /\ notes (after 1000 (DeleteNote (lit "1")) firstRun) = []
  /\ ls_notes (after 1000 (DeleteNote (lit "1")) firstRun)
     = Stored [welcomeNote 1000 1000]
  /\ ~ mirrored (after 1000 (DeleteNote (lit "1")) firstRun)
  /\ notes
       (loadData 3000 3000
          (mount 3000
             (ls_notes (after 1000 (DeleteNote (lit "1")) firstRun))
             (ls_folders (after 1000 (DeleteNote (lit "1")) firstRun))
             (ls_lastSync (after 1000 (DeleteNote (lit "1")) firstRun))))
     = [welcomeNote 1000 1000].
Proof.
  assert (Hn : notes (after 1000 (DeleteNote (lit "1")) firstRun) = [])
    by reflexivity.
  assert (Hs : ls_notes (after 1000 (DeleteNote (lit "1")) firstRun)
               = Stored [welcomeNote 1000 1000]) by reflexivity.
  split; [apply reach_call; apply reach_load |].
  split; [reflexivity |]. split; [exact Hn |]. split; [exact Hs |].
  split; [| reflexivity].
  intros [H _]. rewrite Hn, Hs in H. discriminate.
Qed.

(* ================================================================== *)
(** ** The statements at concrete inputs *)
(* ================================================================== *)

(** Deleting the folder "Work" of [withWork], and a note nobody has. *)
Lemma deleteFolder_reassigns_witness :
  ~ In (number_toString 5000) (default_ids 1000)
  /\ (forall n, In n (notes withWork) -> Note.id n <> Some (lit "none"))
  /\ getNotesInFolder (number_toString 5000)
       (deleteFolder 1000 (number_toString 5000) withWork) = []
  /\ notes (deleteNote (lit "none") withWork) = notes withWork.
Proof.
  assert (H1 : ~ In (number_toString 5000) (default_ids 1000)).
  { rewrite default_ids_eq. vm_compute. intuition discriminate. }
  assert (H2 : forall n, In n (notes withWork) ->
                         Note.id n <> Some (lit "none")).
  { intros n [<- | [<- | []]]; discriminate. }
  split; [exact H1 |]. split; [exact H2 |].
  pose proof (deleteFolder_reassigns 1000 (number_toString 5000)
                (lit "none") withWork H1 H2) as H.
  destruct H as (_ & _ & H3 & _ & H4 & _).
  split; [exact H3 | exact H4].
Defined.

(** Deleting "all" on a first run. *)
Lemma deleteFolder_refuses_default_witness :
  In (lit "all") (default_ids 1000)
  /\ deleteFolder 1000 (lit "all") firstRun = firstRun.
Proof.
  assert (H : In (lit "all") (default_ids 1000)) by (now left).
  split; [exact H |].
  apply (deleteFolder_refuses_default 1000 (lit "all") firstRun H).
Defined.

(** Searching "WELCOME" on a first run. *)
Lemma searchNotes_selects_witness :
  Forall (fun n => has_text n = true) (notes firstRun)
  /\ ((blank (lit "WELCOME")
       /\ @searchNotes asciiRuntime (lit "WELCOME") firstRun
          = Ok (notes firstRun))
      \/ (~ blank (lit "WELCOME")
          /\ exists l,
               @searchNotes asciiRuntime (lit "WELCOME") firstRun = Ok l
               /\ Selection
                    (@Matches asciiRuntime
                       (@toLowerCase asciiRuntime (lit "WELCOME")))
                    l (notes firstRun))).
Proof.
  assert (H : Forall (fun n => has_text n = true) (notes firstRun)).
  { repeat constructor. }
  split; [exact H |].
  apply (searchNotes_selects asciiRuntime (lit "WELCOME") firstRun H).
Defined.

(* ================================================================== *)
(** ** More on the hook: deleting, folders, loading *)
(* ================================================================== *)

Lemma filter_idem {A} (f : A -> bool) (l : list A) :
  filter f (filter f l) = filter f l.
Proof.
  apply forallb_filter_id, forallb_forall.
  intros x Hx. now apply filter_In in Hx.
Qed.

(** X1.  [deleteNote] keeps exactly the notes whose identifier is not the
    given one, in their order, so that afterwards no note carries it; the
    folders are untouched, and deleting the same identifier again changes
    nothing. *)
Theorem deleteNote_removes (noteId : jsstring) (st : Store) :
  Selection (fun n => Note.id n <> Some noteId)
    (notes (deleteNote noteId st)) (notes st)
  /\ ~ In (Some noteId) (map Note.id (notes (deleteNote noteId st)))
  /\ folders (deleteNote noteId st) = folders st
  /\ notes (deleteNote noteId (deleteNote noteId st))
     = notes (deleteNote noteId st).
Proof.
  unfold deleteNote. rewrite !notes_setNotes, folders_setNotes.
  split; [| split; [| split]].
  - apply filter_Selection. intros n _.
    rewrite negb_true_iff. apply strict_eq_false.
  - rewrite in_map_iff. intros [n [Hid Hn]].
    apply filter_In in Hn. destruct Hn as [_ Hn].
    apply negb_true_iff, strict_eq_false in Hn. congruence.
  - reflexivity.
  - apply filter_idem.
Qed.

(** X2.  Creating a note and then deleting the identifier it was given
    leaves the notes that a deletion of that identifier alone would
    leave, whether or not an earlier note carried the identifier; when
    none did, that is the collection as it was before the creation. *)
Theorem saveNote_then_deleteNote
  (now stamp : Z) (noteData : Note.t) (st : Store) :
  truthy (Note.id noteData) = false ->
  notes (deleteNote (number_toString stamp)
           (snd (saveNote now stamp noteData st)))
  = notes (deleteNote (number_toString stamp) st)
  /\ ((forall n, In n (notes st) ->
                 Note.id n <> Some (number_toString stamp)) ->
      notes (deleteNote (number_toString stamp)
               (snd (saveNote now stamp noteData st)))
      = notes st).
Proof.
  intros Hid.
  rewrite saveNote_new_eq by assumption. cbn [snd].
  unfold deleteNote. rewrite !notes_setNotes.
  cbn [filter newNote Note.id].
  rewrite (proj2 (strict_eq_true _ _) eq_refl). cbn [negb].
  split; [reflexivity |].
  intros Hfresh.
  apply forallb_filter_id, forallb_forall. intros n Hn.
  apply negb_true_iff, strict_eq_false. now apply Hfresh.
Qed.

(** A creation on a first run, at a clock reading no note carries, and
    one at the reading 1, which the welcome note carries as identifier:
    deleting "1" afterwards takes the welcome note too. *)
Lemma saveNote_then_deleteNote_witness :
  truthy (Note.id Note.empty) = false
  /\ notes (deleteNote (number_toString 2000)
              (snd (saveNote 2000 2000 Note.empty firstRun)))
     = notes (deleteNote (number_toString 2000) firstRun)
  /\ notes (deleteNote (number_toString 1)
              (snd (saveNote 1 1 Note.empty firstRun)))
     = [].
Proof.
  split; [reflexivity |]. split.
  - exact (proj1 (saveNote_then_deleteNote 2000 2000 Note.empty firstRun
                    eq_refl)).
  - rewrite (proj1 (saveNote_then_deleteNote 1 1 Note.empty firstRun
                      eq_refl)).
    reflexivity.
Defined.

(** What [toString] prints is never empty. *)
Lemma number_toString_nonempty (n : Z) : number_toString n <> [].
Proof.
  unfold number_toString. intros H.
  change [] with (lit "") in H. apply lit_inj in H.
  apply (f_equal NilEmpty.int_of_string) in H.
  rewrite NilEmpty.isi in H. cbn in H. injection H as H.
  destruct n as [| p | p]; cbn in H; try discriminate.
  injection H as H. now apply DecimalPos.Unsigned.to_uint_nonnil in H.
Qed.

(** What [toString] prints is a number, not a word. *)
Lemma number_toString_not_word (n : Z) (s : string) :
  NilEmpty.int_of_string s = None -> number_toString n <> lit s.
Proof.
  unfold number_toString. intros Hs H. apply lit_inj in H.
  apply (f_equal NilEmpty.int_of_string) in H.
  rewrite NilEmpty.isi in H. congruence.
Qed.

Lemma number_toString_not_default (boot n : Z) :
  ~ In (number_toString n) (default_ids boot).
Proof.
  rewrite default_ids_eq.
  intros [H | [H | [H | [H | [H | []]]]]]; symmetry in H; revert H;
    now apply number_toString_not_word.
Qed.

(** X3.  [createFolder] appends a folder whose identifier is the print of
    the clock reading, which is never a default identifier.  So
    [deleteFolder] never refuses a folder made by [createFolder]: it
    removes it, and with it any older folder carrying the same
    identifier, and leaves the other folders in their order.  The notes
    are not touched by the creation. *)
Theorem createFolder_then_deleteFolder
  (boot stamp now : Z) (name : jsstring) (color icon : option jsstring)
  (st : Store) :
  Folder.id (fst (createFolder stamp now name color icon st))
  = number_toString stamp
  /\ ~ In (number_toString stamp) (default_ids boot)
  /\ folders (snd (createFolder stamp now name color icon st))
     = folders st ++ [fst (createFolder stamp now name color icon st)]
  /\ notes (snd (createFolder stamp now name color icon st)) = notes st
  /\ Selection (fun f => Folder.id f <> number_toString stamp)
       (folders (deleteFolder boot (number_toString stamp)
                   (snd (createFolder stamp now name color icon st))))
       (folders st).
Proof.
  assert (Hnd := number_toString_not_default boot stamp).
  split; [reflexivity |]. split; [exact Hnd |].
  unfold createFolder. cbn [fst snd].
  rewrite folders_setFolders, notes_setFolders.
  split; [reflexivity |]. split; [reflexivity |].
  rewrite (deleteFolder_other boot _ _ Hnd).
  rewrite folders_setFolders, folders_setNotes, folders_setFolders.
  rewrite filter_app. cbn [filter Folder.id].
  rewrite str_eqb_refl. cbn [negb]. rewrite app_nil_r.
  apply filter_Selection. intros f _.
  rewrite negb_true_iff. apply str_eqb_false.
Qed.

(** X4.  On a browser without a notes entry, [loadData] leaves exactly
    the welcome note, which is in "quick-notes" and is written to the
    notes entry at once.  The folders are the stored ones when their
    entry parses and the default ones otherwise, and are written too; the
    last sync is read from its entry unless the folders entry failed to
    parse. *)
Theorem loadData_first_run
  (boot tc tu : Z) (f : entry (list Folder.t)) (s : entry Date) :
  notes (loadData tc tu (mount boot Absent f s)) = [welcomeNote tc tu]
  /\ getNotesInFolder (lit "quick-notes")
       (loadData tc tu (mount boot Absent f s)) = [welcomeNote tc tu]
  /\ isLoading (loadData tc tu (mount boot Absent f s)) = false
  /\ ls_notes (loadData tc tu (mount boot Absent f s))
     = Stored [welcomeNote tc tu]
  /\ folders (loadData tc tu (mount boot Absent f s))
     = match f with
       | Stored l => map reviveFolder l
       | _ => DEFAULT_FOLDERS boot
       end
  /\ ls_folders (loadData tc tu (mount boot Absent f s))
     = Stored (folders (loadData tc tu (mount boot Absent f s)))
  /\ lastSync (loadData tc tu (mount boot Absent f s))
     = match f, s with
       | Malformed, _ => None
       | _, Absent => None
       | _, Malformed => Some InvalidDate
       | _, Stored d => Some d
       end.
Proof. destruct f, s; repeat split. Qed.

(** X5.  When the notes entry does not parse, [loadData] stops there:
    the note collection stays empty and the bad entry is left as it is,
    the folders and the last sync are not read, and the default folders
    are written over whatever the folders entry held. *)
Theorem loadData_malformed_notes
  (boot tc tu : Z) (f : entry (list Folder.t)) (s : entry Date) :
  notes (loadData tc tu (mount boot Malformed f s)) = []
  /\ ls_notes (loadData tc tu (mount boot Malformed f s)) = Malformed
  /\ folders (loadData tc tu (mount boot Malformed f s))
     = DEFAULT_FOLDERS boot
  /\ ls_folders (loadData tc tu (mount boot Malformed f s))
     = Stored (DEFAULT_FOLDERS boot)
  /\ lastSync (loadData tc tu (mount boot Malformed f s)) = None
  /\ isLoading (loadData tc tu (mount boot Malformed f s)) = false.
Proof. repeat split. Qed.

Lemma revive_dated (n : Note.t) : dated n -> reviveNote n = n.
Proof.
  intros [[c Hc] [u Hu]]. destruct n. cbn in *. subst.
  reflexivity.
Qed.

Lemma revive_folder_dated (f : Folder.t) :
  folder_dated f -> reviveFolder f = f.
Proof. intros [c Hc]. destruct f. cbn in *. subst. reflexivity. Qed.

Lemma map_fixed {A} (g : A -> A) (P : A -> Prop) (l : list A) :
  (forall x, P x -> g x = x) -> Forall P l -> map g l = l.
Proof.
  intros Hg. induction 1 as [| x l Hx _ IH]; simpl; [reflexivity |].
  now rewrite Hg, IH.
Qed.

Lemma loadData_stored (boot tc tu : Z) (ln : list Note.t)
  (lf : list Folder.t) (s : entry Date) :
  notes (loadData tc tu (mount boot (Stored ln) (Stored lf) s))
  = map reviveNote ln
  /\ folders (loadData tc tu (mount boot (Stored ln) (Stored lf) s))
     = map reviveFolder lf.
Proof.
  destruct ln, s; split; reflexivity.
Qed.

Lemma reachable_is_persisted (boot : Z) (st : Store) :
  reachable boot st -> persisted st.
Proof.
  induction 1; [apply loadData_persisted | now apply after_persisted].
Qed.

(** X6.  Reloading the page gives back the collections that were in
    memory: from a state the hook has reached, with at least one note and
    with valid times in every note and folder, a new mount followed by
    [loadData] over the same local storage has the same notes and the
    same folders. *)
Theorem reload_round_trip (boot boot' tc tu : Z) (st : Store) :
  reachable boot st ->
  notes st <> [] ->
  Forall dated (notes st) ->
  Forall folder_dated (folders st) ->
  notes (loadData tc tu
           (mount boot' (ls_notes st) (ls_folders st) (ls_lastSync st)))
  = notes st
  /\ folders (loadData tc tu
                (mount boot' (ls_notes st) (ls_folders st) (ls_lastSync st)))
     = folders st.
Proof.
  intros R Hne Hn Hf.
  destruct (reachable_is_persisted boot st R) as (_ & Hlf & [Hnil | Hln]);
    [congruence |].
  rewrite Hln, Hlf.
  destruct (loadData_stored boot' tc tu (notes st) (folders st)
              (ls_lastSync st)) as [H1 H2].
  rewrite H1, H2. split.
  - apply (map_fixed reviveNote dated); [apply revive_dated | assumption].
  - apply (map_fixed reviveFolder folder_dated);
      [apply revive_folder_dated | assumption].
Qed.

Lemma reload_round_trip_witness :
  reachable 1000 withWork
  /\ notes withWork <> []
  /\ notes (loadData 9000 9000
              (mount 9000 (ls_notes withWork) (ls_folders withWork)
                 (ls_lastSync withWork)))
     = notes withWork.
Proof.
  assert (R : reachable 1000 withWork).
  { apply (reach_call (SaveNote 6000 6000 workNote)).
    apply (reach_call (CreateFolder 5000 5000 (lit "Work") None None)).
    apply reach_load. }
  assert (Hne : notes withWork <> []) by discriminate.
  split; [exact R |]. split; [exact Hne |].
  apply (reload_round_trip 1000 9000 9000 9000 withWork R Hne).
  - repeat constructor; eexists; reflexivity.
  - repeat constructor; eexists; reflexivity.
Defined.

(** X7.  What a reload does to a note's timestamps.  A note comes back
    unchanged exactly when both its timestamps are valid times.  A
    missing timestamp comes back as the invalid date and an invalid date
    as the epoch, so after two reloads both timestamps are valid times
    and further reloads change nothing. *)
Theorem reviveNote_settles (n : Note.t) :
  (reviveNote n = n <-> dated n)
  /\ revive None = InvalidDate
  /\ revive (Some InvalidDate) = Time 0
  /\ dated (reviveNote (reviveNote n))
  /\ reviveNote (reviveNote (reviveNote n)) = reviveNote (reviveNote n).
Proof.
  split; [| split; [reflexivity | split; [reflexivity |]]].
  - split; [| apply revive_dated].
    destruct n as [i t c ts f [[tc |] |] [[tu |] |] w s a]; cbn;
      intros H; try discriminate H;
      split; eexists; reflexivity.
  - assert (Hd : dated (reviveNote (reviveNote n))).
    { destruct n as [i t c ts f [[tc |] |] [[tu |] |] w s a];
        split; eexists; reflexivity. }
    split; [exact Hd | now apply revive_dated].
Qed.



(** X9.  A [saveNote] whose data carries an identifier rewrites the note
    collection position by position: every note with that identifier
    becomes the record built from the data, every other note stays as it
    is.  The identifiers of the collection, their order and their number
    are the same as before, and the folders are untouched. *)
Theorem saveNote_update_replaces
  (now stamp : Z) (noteData : Note.t) (st : Store) :
  truthy (Note.id noteData) = true ->
  Forall2
    (fun n n' =>
       (Note.id n = Note.id noteData /\ n' = updatedNote now noteData)
       \/ (Note.id n <> Note.id noteData /\ n' = n))
    (notes st) (notes (snd (saveNote now stamp noteData st)))
  /\ map Note.id (notes (snd (saveNote now stamp noteData st)))
     = map Note.id (notes st)
  /\ List.length (notes (snd (saveNote now stamp noteData st)))
     = List.length (notes st)
  /\ folders (snd (saveNote now stamp noteData st)) = folders st.
Proof.
  intros Hid. rewrite saveNote_update_eq by assumption. cbn [snd].
  rewrite notes_setNotes, folders_setNotes.
  split; [| split; [| split; [apply length_map | reflexivity]]].
  - induction (notes st) as [| n l IH]; simpl; constructor; [| exact IH].
    destruct (strict_eq (Note.id n) (Note.id noteData)) eqn:E.
    + left. split; [now apply strict_eq_true | reflexivity].
    + right. split; [now apply strict_eq_false | reflexivity].
  - rewrite map_map. apply map_ext_in. intros n _.
    destruct (strict_eq (Note.id n) (Note.id noteData)) eqn:E;
      [| reflexivity].
    apply strict_eq_true in E. now rewrite E.
Qed.

Lemma saveNote_update_replaces_witness :
  truthy (Note.id editBody) = true
  /\ map Note.id (notes (snd (saveNote 2000 2000 editBody firstRun)))
     = map Note.id (notes firstRun).
Proof.
  split; [reflexivity |].
  apply (saveNote_update_replaces 2000 2000 editBody firstRun eq_refl).
Defined.

(* ================================================================== *)
(** ** The page: creating, saving and deleting through the hook *)
(* ================================================================== *)

Lemma truthy_nonempty (s : jsstring) : s <> [] -> truthy (Some s) = true.
Proof. destruct s; [congruence | reflexivity]. Qed.

Lemma or_str_nonempty (s d : jsstring) : s <> [] -> or_str (Some s) d = s.
Proof. destruct s; [congruence | reflexivity]. Qed.

Lemma Subseq_In {A} (l m : list A) (x : A) :
  Subseq l m -> In x l -> In x m.
Proof.
  induction 1 as [| y l m _ IH | y l m _ IH]; simpl; [tauto | tauto |].
  intros [-> | H]; [now left | right; now apply IH].
Qed.

Lemma getNotesInFolder_Subseq (folderId : jsstring) (st : Store) :
  Subseq (getNotesInFolder folderId st) (notes st).
Proof.
  unfold getNotesInFolder. destruct (str_eqb folderId (lit "all")).
  - apply Subseq_refl.
  - apply filter_Subseq.
Qed.

(** X10.  [handleCreateNote] never adds a note.  It gives [saveNote] a
    note that already has an identifier, so the collection is rewritten
    in place: a note that happens to carry that identifier is replaced by
    the new blank note, every other note is kept, and the number of notes
    is the same.  When no note carries the identifier the collection is
    unchanged, and the note opened in the editor is not in it. *)
Theorem handleCreateNote_adds_nothing
  (stamp tc tu now stamp2 : Z) (p : Page) :
  activeNote (handleCreateNote stamp tc tu now stamp2 p)
  = Some (updatedNote now (blankNote stamp tc tu (activeFolderId p)))
  /\ List.length (notes (hook (handleCreateNote stamp tc tu now stamp2 p)))
     = List.length (notes (hook p))
  /\ Forall2
       (fun n n' =>
          (Note.id n = Some (number_toString stamp)
           /\ n' = updatedNote now (blankNote stamp tc tu (activeFolderId p)))
          \/ (Note.id n <> Some (number_toString stamp) /\ n' = n))
       (notes (hook p))
       (notes (hook (handleCreateNote stamp tc tu now stamp2 p)))
  /\ folders (hook (handleCreateNote stamp tc tu now stamp2 p))
     = folders (hook p)
  /\ ((forall n, In n (notes (hook p)) ->
                 Note.id n <> Some (number_toString stamp)) ->
      notes (hook (handleCreateNote stamp tc tu now stamp2 p))
      = notes (hook p)
      /\ ~ In (updatedNote now (blankNote stamp tc tu (activeFolderId p)))
             (notes (hook (handleCreateNote stamp tc tu now stamp2 p)))).
Proof.
  assert (Hid : truthy (Note.id (blankNote stamp tc tu (activeFolderId p)))
                = true)
    by apply truthy_nonempty, number_toString_nonempty.
  unfold handleCreateNote. cbn [hook activeNote].
  rewrite saveNote_update_eq by assumption. cbn [fst snd].
  rewrite notes_setNotes, folders_setNotes.
  set (u := updatedNote now (blankNote stamp tc tu (activeFolderId p))).
  split; [reflexivity |]. split; [apply length_map |].
  split; [| split; [reflexivity |]].
  - induction (notes (hook p)) as [| n l IH]; simpl; constructor;
      [| exact IH].
    cbn [blankNote Note.id].
    destruct (strict_eq (Note.id n) (Some (number_toString stamp))) eqn:E.
    + left. split; [now apply strict_eq_true | reflexivity].
    + right. split; [now apply strict_eq_false | reflexivity].
  - intros Hnone. rewrite map_unmatched.
    + split; [reflexivity |]. intros Hin. now apply (Hnone _ Hin).
    + intros n Hn. apply strict_eq_false. now apply Hnone.
Qed.

Section PageProofs.
Context {rt : JsRuntime}.

Lemma categorizeNote_default (content : jsstring) :
  In (categorizeNote content)
    [lit "meetings"; lit "ideas"; lit "tasks"; lit "quick-notes"].
Proof.
  unfold categorizeNote.
  repeat match goal with
         | |- context [if ?b then _ else _] => destruct b
         end; simpl; tauto.
Qed.

Lemma categorizeNote_nonempty (content : jsstring) :
  categorizeNote content <> [].
Proof.
  destruct (categorizeNote_default content)
    as [<- | [<- | [<- | [<- | []]]]]; discriminate.
Qed.

Lemma getDisplayedNotes_Subseq (p : Page) (d : list Note.t) :
  getDisplayedNotes p = Ok d -> Subseq d (notes (hook p)).
Proof.
  unfold getDisplayedNotes. destruct (trim (searchQuery p)) eqn:E.
  - intros H. injection H as <-. apply getNotesInFolder_Subseq.
  - unfold searchNotes. rewrite E. apply filterM_Subseq.
Qed.

Lemma getDisplayedNotes_throws (p : Page) :
  getDisplayedNotes p = TypeError ->
  ~ blank (searchQuery p)
  /\ ~ Forall (fun n => has_text n = true) (notes (hook p)).
Proof.
  unfold getDisplayedNotes. destruct (trim (searchQuery p)) eqn:E;
    [discriminate |].
  intros H. split.
  - intros Hb. apply trim_nil in Hb. congruence.
  - intros Hwt. unfold searchNotes in H. rewrite E in H.
    destruct (filterM_Selection (toLowerCase (searchQuery p)) _ Hwt)
      as [l [Hl _]].
    congruence.
Qed.

End PageProofs.

(** X11.  Saving, through [handleSaveNote], a new note that has a body
    and no folder: the note is filed under the folder [categorizeNote]
    picks for the body, which is one of the four default folders; it is
    put in front of the collection and is the first note listed in that
    folder, and it becomes the active note.  A toast tells the move unless
    that folder is the selected one. *)
Theorem handleSaveNote_categorizes
  (rt : JsRuntime) (now stamp : Z) (noteData : Note.t) (body : jsstring)
  (p : Page) :
  truthy (Note.id noteData) = false ->
  Note.content noteData = Some body ->
  body <> [] ->
  truthy (Note.folder noteData) = false ->
  In (categorizeNote body)
    [lit "meetings"; lit "ideas"; lit "tasks"; lit "quick-notes"]
  /\ (exists n,
        activeNote (handleSaveNote now stamp noteData p) = Some n
        /\ Note.folder n = Some (categorizeNote body)
        /\ notes (hook (handleSaveNote now stamp noteData p))
           = n :: notes (hook p)
        /\ getNotesInFolder (categorizeNote body)
             (hook (handleSaveNote now stamp noteData p))
           = n :: getNotesInFolder (categorizeNote body) (hook p))
  /\ toasts (handleSaveNote now stamp noteData p)
     = toasts p
       ++ (if str_eqb (categorizeNote body) (activeFolderId p) then []
           else [mkToast (lit "Note auto-categorized")
                   (lit "Moved to "
                    ++ folderLabel (folders (hook p))
                         (categorizeNote body))]).
Proof.
  intros Hid Hc Hne Hf.
  assert (Hcat := categorizeNote_nonempty body).
  assert (Ha : autoCategorized noteData
               = Note.with_folder noteData (categorizeNote body)).
  { unfold autoCategorized. rewrite Hc, Hf.
    destruct body; [congruence | reflexivity]. }
  split; [apply categorizeNote_default |].
  unfold handleSaveNote. cbn [hook activeNote toasts]. rewrite Ha.
  cbn [Note.with_folder Note.folder].
  rewrite saveNote_new_eq by (destruct noteData; exact Hid).
  cbn [fst snd].
  set (n := newNote now stamp
              (Note.with_folder noteData (categorizeNote body))).
  assert (Hfn : Note.folder n = Some (categorizeNote body)).
  { subst n. cbn. f_equal. now apply or_str_nonempty. }
  assert (Hn : notes (setNotes (fun prev => n :: prev) (hook p))
               = n :: notes (hook p)) by apply notes_setNotes.
  split.
  - exists n. split; [reflexivity |]. split; [exact Hfn |].
    split; [exact Hn |].
    now apply getNotesInFolder_cons_in.
  - f_equal. destruct (categorizeNote body) as [| c r]; [congruence |].
    now destruct (str_eqb (c :: r) (activeFolderId p)).
Qed.

Lemma handleSaveNote_categorizes_witness :
  truthy (Note.id agendaNote) = false
  /\ Note.content agendaNote
     = Some (lit "Let's discuss the meeting agenda")
  /\ In (@categorizeNote asciiRuntime
           (lit "Let's discuss the meeting agenda"))
       [lit "meetings"; lit "ideas"; lit "tasks"; lit "quick-notes"].
Proof.
  split; [reflexivity |]. split; [reflexivity |].
  apply (handleSaveNote_categorizes asciiRuntime 2000 2000 agendaNote
           (lit "Let's discuss the meeting agenda") firstPage
           eq_refl eq_refl).
  - discriminate.
  - reflexivity.
Defined.

(** X12.  When the data given to [handleSaveNote] names a folder, the
    data goes to [saveNote] as it is ([categorizeNote] is not consulted)
    and the saved note becomes the active one; the toast "Note
    auto-categorized" is shown all the same whenever that folder is not
    the selected one. *)
Theorem handleSaveNote_keeps_folder
  (rt : JsRuntime) (now stamp : Z) (noteData : Note.t) (folder : jsstring)
  (p : Page) :
  Note.folder noteData = Some folder ->
  folder <> [] ->
  hook (handleSaveNote now stamp noteData p)
  = snd (saveNote now stamp noteData (hook p))
  /\ activeNote (handleSaveNote now stamp noteData p)
     = Some (fst (saveNote now stamp noteData (hook p)))
  /\ toasts (handleSaveNote now stamp noteData p)
     = toasts p
       ++ (if str_eqb folder (activeFolderId p) then []
           else [mkToast (lit "Note auto-categorized")
                   (lit "Moved to "
                    ++ folderLabel (folders (hook p)) folder)]).
Proof.
  intros Hf Hne.
  assert (Ha : autoCategorized noteData = noteData).
  { unfold autoCategorized. rewrite Hf.
    rewrite (truthy_nonempty folder Hne).
    now destruct (Note.content noteData) as [[| c r] |]. }
  unfold handleSaveNote. cbn [hook activeNote toasts]. rewrite Ha, Hf.
  repeat split. f_equal. destruct folder as [| c r]; [congruence |].
  now destruct (str_eqb (c :: r) (activeFolderId p)).
Qed.

Lemma handleSaveNote_keeps_folder_witness :
  Note.folder workNote = Some (number_toString 5000)
  /\ number_toString 5000 <> []
  /\ hook (@handleSaveNote asciiRuntime 2000 2000 workNote firstPage)
     = snd (saveNote 2000 2000 workNote (hook firstPage)).
Proof.
  assert (H : number_toString 5000 <> []) by discriminate.
  split; [reflexivity |]. split; [exact H |].
  apply (handleSaveNote_keeps_folder asciiRuntime 2000 2000 workNote
           (number_toString 5000) firstPage eq_refl H).
Defined.

(** X13.  [handleDeleteNote] deletes the note in the hook and shows the
    toast "Note deleted" (also when no note had the identifier).  The
    active note afterwards never carries the deleted identifier: when the
    active note was another one it stays; when it was the deleted one,
    the editor moves to a note that is still in the collection, or closes
    when no other note is displayed.  The call throws only when the active
    note is the deleted one, a search is on, and some note lacks a title,
    a body or tags. *)
Theorem handleDeleteNote_moves_on
  (rt : JsRuntime) (noteId : jsstring) (p : Page) :
  match handleDeleteNote noteId p with
  | Ok p' =>
      hook p' = deleteNote noteId (hook p)
      /\ toasts p'
         = toasts p
           ++ [mkToast (lit "Note deleted")
                 (lit "Note has been removed successfully.")]
      /\ activeId p' <> Some noteId
      /\ ((activeId p <> Some noteId /\ activeNote p' = activeNote p)
          \/ (activeId p = Some noteId
              /\ match activeNote p' with
                 | Some a => In a (notes (hook p'))
                 | None => True
                 end))
  | TypeError =>
      activeId p = Some noteId
      /\ ~ blank (searchQuery p)
      /\ ~ Forall (fun n => has_text n = true) (notes (hook p))
  end.
Proof.
  unfold handleDeleteNote.
  destruct (strict_eq (activeId p) (Some noteId)) eqn:Ea.
  - apply strict_eq_true in Ea.
    destruct (getDisplayedNotes p) as [d |] eqn:Ed; cbn [bind].
    + cbn [hook toasts activeNote].
      split; [reflexivity |]. split; [reflexivity |].
      pose proof (getDisplayedNotes_Subseq p d Ed) as Hsub.
      destruct (filter _ d) as [| a rest] eqn:Ef.
      * split; [discriminate |]. right. now split.
      * assert (Ha : In a (filter
                             (fun note =>
                                negb (strict_eq (Note.id note)
                                        (Some noteId))) d))
          by (rewrite Ef; now left).
        apply filter_In in Ha. destruct Ha as [Hin Hid].
        split.
        -- unfold activeId. cbn [activeNote].
           now apply negb_true_iff, strict_eq_false in Hid.
        -- right. split; [exact Ea |].
           unfold deleteNote. rewrite notes_setNotes.
           apply filter_In. split; [| exact Hid].
           now apply (Subseq_In d).
    + split; [exact Ea |]. now apply getDisplayedNotes_throws.
  - apply strict_eq_false in Ea. cbn [hook toasts activeNote].
    split; [reflexivity |]. split; [reflexivity |].
    split; [exact Ea |]. left. now split.
Qed.

Lemma inFolder_other (a g : jsstring) (l : list Note.t) :
  g <> a -> filter (inFolder g) (filter (inFolder a) l) = [].
Proof.
  intros Hne. induction l as [| n l IH]; simpl; [reflexivity |].
  destruct (inFolder a n) eqn:E; [| exact IH].
  simpl. rewrite IH. unfold inFolder in *.
  apply strict_eq_true in E. rewrite E.
  replace (strict_eq (Some a) (Some g)) with false; [reflexivity |].
  symmetry. apply strict_eq_false. congruence.
Qed.

(** X14.  The sidebar counts the notes of each folder among the notes the
    page displays, not among all notes.  With an empty search box and a
    folder other than "all" selected, the displayed notes are the notes
    of that folder, so the sidebar shows their number for that folder and
    for "all", and no notes for every other folder. *)
Theorem sidebar_counts_follow_selection
  (rt : JsRuntime) (p : Page) (g : jsstring) :
  blank (searchQuery p) ->
  activeFolderId p <> lit "all" ->
  getDisplayedNotes p = Ok (getNotesInFolder (activeFolderId p) (hook p))
  /\ Sidebar.getNotesInFolder
       (getNotesInFolder (activeFolderId p) (hook p)) (activeFolderId p)
     = getNotesInFolder (activeFolderId p) (hook p)
  /\ Sidebar.getNotesInFolder
       (getNotesInFolder (activeFolderId p) (hook p)) (lit "all")
     = getNotesInFolder (activeFolderId p) (hook p)
  /\ (g <> activeFolderId p -> g <> lit "all" ->
      Sidebar.getNotesInFolder
        (getNotesInFolder (activeFolderId p) (hook p)) g = []).
Proof.
  intros Hb Ha.
  assert (Hall : str_eqb (activeFolderId p) (lit "all") = false)
    by now apply str_eqb_false.
  split; [| split; [| split]].
  - unfold getDisplayedNotes. now rewrite (proj2 (trim_nil _) Hb).
  - unfold Sidebar.getNotesInFolder, getNotesInFolder. rewrite Hall.
    apply filter_idem.
  - unfold Sidebar.getNotesInFolder. now rewrite str_eqb_refl.
  - intros Hg Hgall.
    unfold Sidebar.getNotesInFolder, getNotesInFolder. rewrite Hall.
    rewrite (proj2 (str_eqb_false _ _) Hgall).
    now apply inFolder_other.
Qed.

Lemma sidebar_counts_follow_selection_witness :
  blank (searchQuery workPage)
  /\ activeFolderId workPage <> lit "all"
  /\ Sidebar.getNotesInFolder
       (getNotesInFolder (activeFolderId workPage) (hook workPage))
       (lit "all")
     = getNotesInFolder (activeFolderId workPage) (hook workPage).
Proof.
  assert (H1 : blank (searchQuery workPage)) by constructor.
  assert (H2 : activeFolderId workPage <> lit "all") by discriminate.
  split; [exact H1 |]. split; [exact H2 |].
  apply (sidebar_counts_follow_selection asciiRuntime workPage
           (lit "ideas") H1 H2).
Defined.

(* ================================================================== *)
(** ** The sidebar: previews and dates *)
(* ================================================================== *)

Lemma preview_cut (k : nat) (content : jsstring) :
  (k < List.length content)%nat ->
  List.length (firstn k content ++ lit "...") = (k + 3)%nat
  /\ firstn k (firstn k content ++ lit "...") = firstn k content.
Proof.
  intros H.
  assert (Hl : List.length (firstn k content) = k)
    by (rewrite length_firstn; lia).
  split.
  - rewrite length_app, Hl. reflexivity.
  - rewrite firstn_app, Hl, Nat.sub_diag, firstn_O, app_nil_r.
    rewrite firstn_firstn. now rewrite Nat.min_id.
Qed.

(** X15.  The preview of a note body is the body itself when it has at
    most 60 code units, and otherwise its first 60 code units followed by
    three dots; so a preview never has more than 63 code units and always
    starts as the body does.  The earlier sidebar does the same with 100
    and 103. *)
Theorem getPreview_bounded (content : jsstring) :
  (List.length (Sidebar.getPreview content) <= 63)%nat
  /\ firstn 60 (Sidebar.getPreview content) = firstn 60 content
  /\ ((List.length content <= 60)%nat
      /\ Sidebar.getPreview content = content
      \/ (60 < List.length content)%nat
         /\ Sidebar.getPreview content = firstn 60 content ++ lit "...")
  /\ (List.length (OldSidebar.getPreview content) <= 103)%nat
  /\ firstn 100 (OldSidebar.getPreview content) = firstn 100 content
  /\ ((List.length content <= 100)%nat
      /\ OldSidebar.getPreview content = content
      \/ (100 < List.length content)%nat
         /\ OldSidebar.getPreview content
            = firstn 100 content ++ lit "...").
Proof.
  unfold Sidebar.getPreview, OldSidebar.getPreview.
  destruct (Nat.ltb_spec 60 (List.length content)) as [H60 | H60];
    destruct (Nat.ltb_spec 100 (List.length content)) as [H100 | H100];
    try (destruct (preview_cut 60 content H60) as [L60 F60]);
    try (destruct (preview_cut 100 content H100) as [L100 F100]);
    repeat split; try lia; try assumption; try tauto;
    try (rewrite L60; cbn; lia); try (rewrite L100; cbn; lia).
Qed.

(** X16.  [formatDate] goes by whole periods of 24 hours between the date
    and the clock, not by calendar days: less than one period is "Today",
    less than two is "Yesterday", less than seven is the number of
    periods followed by " days ago", and from seven on the locale's date.
    A date later than the clock gives a negative number of days ago.
    (For time values less than 2^53 milliseconds apart.) *)
Theorem formatDate_periods
  (toLocaleDateString : Date -> jsstring) (now t : Z) :
  (Z.abs (now - t) < 2 ^ 53)%Z ->
  ((0 <= now - t < 86400000)%Z
   /\ Sidebar.formatDate toLocaleDateString now (Time t) = lit "Today")
  \/ ((86400000 <= now - t < 2 * 86400000)%Z
      /\ Sidebar.formatDate toLocaleDateString now (Time t)
         = lit "Yesterday")
  \/ ((2 * 86400000 <= now - t < 7 * 86400000)%Z
      /\ (2 <= (now - t) / 86400000 < 7)%Z
      /\ Sidebar.formatDate toLocaleDateString now (Time t)
         = number_toString ((now - t) / 86400000) ++ lit " days ago")
  \/ ((now < t)%Z
      /\ ((now - t) / 86400000 < 0)%Z
      /\ Sidebar.formatDate toLocaleDateString now (Time t)
         = number_toString ((now - t) / 86400000) ++ lit " days ago")
  \/ ((7 * 86400000 <= now - t)%Z
      /\ Sidebar.formatDate toLocaleDateString now (Time t)
         = toLocaleDateString (Time t)).
Proof.
  intros _. unfold Sidebar.formatDate.
  change (1000 * 60 * 60 * 24)%Z with 86400000%Z.
  set (q := ((now - t) / 86400000)%Z).
  assert (Hq : (86400000 * q <= now - t < 86400000 * q + 86400000)%Z).
  { subst q.
    pose proof (Z.div_mod (now - t) 86400000 ltac:(lia)).
    pose proof (Z.mod_pos_bound (now - t) 86400000 ltac:(lia)). lia. }
  destruct (Z.eqb_spec q 0) as [H0 | H0];
    [left; split; [lia | reflexivity] |].
  destruct (Z.eqb_spec q 1) as [H1 | H1];
    [right; left; split; [lia | reflexivity] |].
  destruct (Z.ltb_spec q 7) as [H7 | H7].
  - assert (q < 0 \/ 2 <= q)%Z as [Hneg | Hpos] by lia.
    + right; right; right; left.
      split; [lia | split; [lia | reflexivity]].
    + right; right; left.
      split; [lia | split; [lia | reflexivity]].
  - right; right; right; right. split; [lia | reflexivity].
Qed.

(** A note updated at 23:00 and looked at two hours later, on the next
    calendar day. *)
Lemma formatDate_periods_witness :
  (Z.abs (90000000 - 82800000) < 2 ^ 53)%Z
  /\ Sidebar.formatDate (fun _ => lit "1/1/1970") 90000000 (Time 82800000)
     = lit "Today".
Proof.
  assert (H : (Z.abs (90000000 - 82800000) < 2 ^ 53)%Z) by reflexivity.
  split; [exact H |].
  destruct (formatDate_periods (fun _ => lit "1/1/1970") 90000000 82800000 H)
    as [[_ E] | [[R _] | [[R _] | [[R _] | [R _]]]]];
    [exact E | exfalso; revert R; cbv; intuition discriminate ..].
Defined.

(* ================================================================== *)
(** ** The editor: tags *)
(* ================================================================== *)

Lemma existsb_str_eqb (x : jsstring) (l : list jsstring) :
  existsb (str_eqb x) l = true <-> In x l.
Proof.
  rewrite existsb_exists. split.
  - intros [y [Hy E]]. apply str_eqb_true in E. now subst.
  - intros H. exists x. split; [assumption | apply str_eqb_refl].
Qed.

Lemma not_existsb_str_eqb (x : jsstring) (l : list jsstring) :
  existsb (str_eqb x) l = false <-> ~ In x l.
Proof.
  rewrite <- existsb_str_eqb. destruct (existsb (str_eqb x) l);
    split; congruence.
Qed.

Lemma NoDup_snoc (l : list jsstring) (x : jsstring) :
  NoDup l -> ~ In x l -> NoDup (l ++ [x]).
Proof.
  intros Hl Hx. apply NoDup_app; [assumption | repeat constructor; tauto |].
  intros y Hy [<- | []]. contradiction.
Qed.



Lemma removeTag_absent (tag : jsstring) (tags : list jsstring) :
  ~ In tag tags -> Editor.removeTag tag tags = tags.
Proof.
  intros H. unfold Editor.removeTag.
  apply forallb_filter_id, forallb_forall. intros t Ht.
  apply negb_true_iff, str_eqb_false. congruence.
Qed.

(** X18.  [removeTag] keeps exactly the tags other than the given one, in
    their order, so the tag is gone afterwards; removing what [addTag]
    has just appended gives back the tags as they were. *)
Theorem removeTag_removes (tag : jsstring) (tags : list jsstring) :
  Selection (fun t => t <> tag) (Editor.removeTag tag tags) tags
  /\ ~ In tag (Editor.removeTag tag tags)
  /\ (~ In tag tags -> Editor.removeTag tag (tags ++ [tag]) = tags)
  /\ (forall newTag,
        trim newTag = tag -> tag <> [] -> ~ In tag tags ->
        Editor.removeTag tag (fst (Editor.addTag tags newTag)) = tags).
Proof.
  assert (Hsnoc : ~ In tag tags ->
                  Editor.removeTag tag (tags ++ [tag]) = tags).
  { intros H. unfold Editor.removeTag. rewrite filter_app.
    fold (Editor.removeTag tag tags). rewrite (removeTag_absent _ _ H).
    cbn [filter]. rewrite str_eqb_refl. cbn [negb]. apply app_nil_r. }
  split; [| split; [| split; [exact Hsnoc |]]].
  - apply filter_Selection. intros t _.
    rewrite negb_true_iff. apply str_eqb_false.
  - intros H. apply filter_In in H. destruct H as [_ H].
    apply negb_true_iff, str_eqb_false in H. congruence.
  - intros newTag Ht Hne Hin. unfold Editor.addTag. rewrite Ht.
    destruct tag as [| c r]; [congruence |].
    rewrite (proj2 (not_existsb_str_eqb _ _) Hin). cbn [negb fst].
    now apply Hsnoc.
Qed.

Lemma setAddAll_NoDup (l acc : list jsstring) :
  NoDup acc -> NoDup (setAddAll acc l).
Proof.
  revert acc. induction l as [| x l IH]; intros acc Hacc; simpl;
    [assumption |].
  apply IH. destruct (existsb (str_eqb x) acc) eqn:E; [assumption |].
  apply NoDup_snoc; [assumption | now apply not_existsb_str_eqb].
Qed.

Lemma setAddAll_In (l acc : list jsstring) (y : jsstring) :
  In y (setAddAll acc l) <-> In y acc \/ In y l.
Proof.
  revert acc. induction l as [| x l IH]; intros acc; simpl; [tauto |].
  rewrite IH. destruct (existsb (str_eqb x) acc) eqn:E.
  - apply existsb_str_eqb in E. split; [tauto |].
    intros [H | [<- | H]]; tauto.
  - rewrite in_app_iff. simpl. tauto.
Qed.

Lemma setAddAll_prefix (l acc : list jsstring) :
  exists added, setAddAll acc l = acc ++ added.
Proof.
  revert acc. induction l as [| x l IH]; intros acc; simpl.
  - exists []. now rewrite app_nil_r.
  - destruct (existsb (str_eqb x) acc); [apply IH |].
    destruct (IH (acc ++ [x])) as [added H].
    exists (x :: added). now rewrite H, <- app_assoc.
Qed.

Lemma setAddAll_app (l1 l2 acc : list jsstring) :
  setAddAll acc (l1 ++ l2) = setAddAll (setAddAll acc l1) l2.
Proof.
  revert acc. induction l1 as [| x l1 IH]; intros acc; simpl;
    [reflexivity | apply IH].
Qed.

Lemma setAddAll_distinct (l acc : list jsstring) :
  NoDup (acc ++ l) -> setAddAll acc l = acc ++ l.
Proof.
  revert acc. induction l as [| x l IH]; intros acc H; simpl.
  - now rewrite app_nil_r.
  - assert (Hx : ~ In x acc).
    { apply NoDup_remove_2 in H. rewrite in_app_iff in H. tauto. }
    rewrite (proj2 (not_existsb_str_eqb _ _) Hx).
    rewrite IH; rewrite <- app_assoc; [reflexivity | exact H].
Qed.

Section AutoTag.
Context {rt : JsRuntime}.

Lemma suggestedTags_size (content : jsstring) :
  Editor.suggestedTags content <> []
  /\ (List.length (Editor.suggestedTags content) <= 6)%nat.
Proof.
  unfold Editor.suggestedTags.
  set (text := toLowerCase content).
  destruct (includes text (lit "meeting") || includes text (lit "agenda")),
    (includes text (lit "idea") || includes text (lit "brainstorm")),
    (includes text (lit "task") || includes text (lit "todo")),
    (includes text (lit "project")), (includes text (lit "research")),
    (includes text (lit "important") || includes text (lit "urgent"));
    cbn; split; (discriminate || lia).
Qed.

Lemma suggestedTags_meeting (content : jsstring) :
  In (lit "meeting") (Editor.suggestedTags content) ->
  includes (toLowerCase content) (lit "meeting")
  || includes (toLowerCase content) (lit "agenda") = true.
Proof.
  unfold Editor.suggestedTags.
  destruct (includes (toLowerCase content) (lit "meeting")
            || includes (toLowerCase content) (lit "agenda"));
    [reflexivity |].
  destruct (includes (toLowerCase content) (lit "idea")
            || includes (toLowerCase content) (lit "brainstorm")),
    (includes (toLowerCase content) (lit "task")
     || includes (toLowerCase content) (lit "todo")),
    (includes (toLowerCase content) (lit "project")),
    (includes (toLowerCase content) (lit "research")),
    (includes (toLowerCase content) (lit "important")
     || includes (toLowerCase content) (lit "urgent"));
    cbn; intuition discriminate.
Qed.

End AutoTag.

(** X19.  The tags after [handleAutoTag] are distinct, whatever they were
    before, and are exactly the earlier tags and the suggested ones.  When
    the earlier tags were distinct they keep their places and the new
    tags, those suggested and not yet there, follow them.  Between one
    and six tags are suggested. *)
Theorem handleAutoTag_merges
  (rt : JsRuntime) (content : jsstring) (prev : list jsstring) :
  NoDup (Editor.handleAutoTag content prev)
  /\ (forall t,
        In t (Editor.handleAutoTag content prev)
        <-> In t prev \/ In t (Editor.suggestedTags content))
  /\ (NoDup prev ->
      exists added,
        Editor.handleAutoTag content prev = prev ++ added
        /\ forall t,
             In t added
             <-> In t (Editor.suggestedTags content) /\ ~ In t prev)
  /\ Editor.suggestedTags content <> []
  /\ (List.length (Editor.suggestedTags content) <= 6)%nat.
Proof.
  assert (Hnd : NoDup (Editor.handleAutoTag content prev))
    by (apply setAddAll_NoDup; constructor).
  assert (Hin : forall t,
             In t (Editor.handleAutoTag content prev)
             <-> In t prev \/ In t (Editor.suggestedTags content)).
  { intros t. unfold Editor.handleAutoTag.
    rewrite setAddAll_In, in_app_iff. simpl. tauto. }
  split; [exact Hnd |]. split; [exact Hin |].
  split; [| apply suggestedTags_size].
  intros Hprev.
  assert (E : Editor.handleAutoTag content prev
              = setAddAll prev (Editor.suggestedTags content)).
  { unfold Editor.handleAutoTag. rewrite setAddAll_app.
    now rewrite (setAddAll_distinct prev []). }
  destruct (setAddAll_prefix (Editor.suggestedTags content) prev)
    as [added Ha].
  exists added. split; [now rewrite E |].
  intros t. rewrite E, Ha in Hnd, Hin.
  specialize (Hin t). rewrite in_app_iff in Hin.
  split.
  - intros Ht. assert (Hnp : ~ In t prev).
    { intros Hp. revert Hnd Hp Ht. clear.
      induction prev as [| x l IH]; simpl; [tauto |].
      intros Hnd [-> | Hp] Ht.
      - inversion Hnd as [| ? ? Hx _]. apply Hx.
        apply in_or_app. now right.
      - inversion Hnd. now apply IH. }
    tauto.
  - tauto.
Qed.

(** X20.  The tag rule and the folder rule agree on meetings: whenever
    [handleAutoTag] suggests the tag "meeting" for a body,
    [categorizeNote] files that body under "meetings". *)
Theorem meeting_tag_meetings_folder (rt : JsRuntime) (content : jsstring) :
  In (lit "meeting") (Editor.suggestedTags content) ->
  categorizeNote content = lit "meetings".
Proof.
  intros H. apply suggestedTags_meeting in H.
  unfold categorizeNote.
  apply orb_true_iff in H. destruct H as [H | H]; rewrite H;
    [reflexivity |].
  now rewrite orb_true_r.
Qed.

Lemma meeting_tag_meetings_folder_witness :
  In (lit "meeting") (@Editor.suggestedTags asciiRuntime (lit "Agenda"))
  /\ @categorizeNote asciiRuntime (lit "Agenda") = lit "meetings".
Proof.
  assert (H : In (lit "meeting")
                (@Editor.suggestedTags asciiRuntime (lit "Agenda")))
    by (now left).
  split; [exact H |].
  apply (meeting_tag_meetings_folder asciiRuntime (lit "Agenda") H).
Defined.

(* ================================================================== *)
(** ** The earlier sidebar's filter *)
(* ================================================================== *)

Section OldFilter.
Context {rt : JsRuntime}.

Lemma old_noteMatches_spec (query : jsstring) (n : Note.t) :
  has_text n = true ->
  exists b, OldSidebar.noteMatches query n = Ok b
            /\ (b = true <-> OldMatches (toLowerCase query) n).
Proof.
  destruct n as [i [t |] [c |] [ts |] f ca ua w s a]; try discriminate.
  intros _. unfold OldSidebar.noteMatches, OldMatches. cbn.
  destruct (includes (toLowerCase t) (toLowerCase query)) eqn:Et.
  { exists true. split; [reflexivity |]. split; [intros _ | reflexivity].
    left. exists t. split; [reflexivity |]. now apply includes_spec. }
  destruct (includes (toLowerCase c) (toLowerCase query)) eqn:Ec.
  { exists true. split; [reflexivity |]. split; [intros _ | reflexivity].
    right; left. exists c. split; [reflexivity |]. now apply includes_spec. }
  eexists. split; [reflexivity |]. split.
  - intros Es. apply existsb_exists in Es. destruct Es as [tag [Hin Htag]].
    right; right. exists ts, tag.
    repeat split; [assumption |]. now apply includes_spec.
  - intros [[t' [Ht Hs]] | [[c' [Hc Hs]] | [ts' [tag [Hts [Hin Hs]]]]]].
    + injection Ht as Ht. subst t'. apply includes_spec in Hs. congruence.
    + injection Hc as Hc. subst c'. apply includes_spec in Hs. congruence.
    + injection Hts as Hts. subst ts'. apply includes_spec in Hs.
      apply existsb_exists. now exists tag.
Qed.

Lemma old_filter_Selection (query : jsstring) (l : list Note.t) :
  Forall (fun n => has_text n = true) l ->
  exists r, OldSidebar.filteredNotes query l = Ok r
            /\ Selection (OldMatches (toLowerCase query)) r l.
Proof.
  unfold OldSidebar.filteredNotes.
  induction 1 as [| n l Hn _ [r [Hr Hsel]]]; simpl.
  - exists []. split; [reflexivity | constructor].
  - destruct (old_noteMatches_spec query n Hn) as [b [Hb Hiff]].
    rewrite Hb, Hr. simpl. destruct b.
    + exists (n :: r). split; [reflexivity |].
      apply Selection_keep; [now apply Hiff | assumption].
    + exists r. split; [reflexivity |].
      apply Selection_drop; [| assumption].
      intros HM. apply Hiff in HM. discriminate.
Qed.

Lemma OldMatches_Matches (term : jsstring) (n : Note.t) :
  OldMatches term n -> Matches term n.
Proof. unfold OldMatches, Matches. tauto. Qed.

Lemma OldMatches_empty (n : Note.t) :
  has_text n = true -> OldMatches [] n.
Proof.
  destruct n as [i [t |] c ts f ca ua w s a]; try discriminate.
  intros _. left. exists t. split; [reflexivity |].
  now exists [], (toLowerCase t).
Qed.

End OldFilter.

Lemma Selection_all {A} (P : A -> Prop) (l m : list A) :
  Selection P l m -> Forall P m -> l = m.
Proof.
  induction 1 as [| x l m Hx _ IH | x l m Hx _ IH]; intros HF.
  - reflexivity.
  - inversion HF; subst. f_equal. now apply IH.
  - inversion HF; subst. contradiction.
Qed.

Lemma Selection_weaker {A} (P Q : A -> Prop) (l l' m : list A) :
  (forall x, P x -> Q x) ->
  Selection P l m -> Selection Q l' m -> Subseq l l'.
Proof.
  intros HPQ HP. revert l'.
  induction HP as [| x l m Hx _ IH | x l m Hx _ IH]; intros l' HQ;
    inversion HQ; subst.
  - constructor.
  - apply Subseq_keep. now apply IH.
  - exfalso. auto.
  - apply Subseq_skip. now apply IH.
  - now apply IH.
Qed.

(** X21.  On a collection whose notes have a title, a body and tags, the
    earlier sidebar's filter returns exactly the notes, in their order,
    for which the lowercased query is a substring of the lowercased
    title, body or some tag (the summary is not looked at, and the query
    is not trimmed).  The empty query selects every note, and every note
    this filter selects is also among those [searchNotes] returns for the
    same query when that query is not blank. *)
Theorem old_filter_selects
  (rt : JsRuntime) (query : jsstring) (st : Store) :
  Forall (fun n => has_text n = true) (notes st) ->
  exists l,
    OldSidebar.filteredNotes query (notes st) = Ok l
    /\ Selection (OldMatches (toLowerCase query)) l (notes st)
    /\ (query = [] -> l = notes st)
    /\ (~ blank query ->
        exists l', searchNotes query st = Ok l' /\ Subseq l l').
Proof.
  intros Hwt.
  destruct (old_filter_Selection query (notes st) Hwt) as [l [Hl Hsel]].
  exists l. split; [exact Hl |]. split; [exact Hsel |]. split.
  - intros ->. rewrite toLowerCase_empty in Hsel.
    apply (Selection_all _ _ _ Hsel).
    apply Forall_forall. intros n Hn. apply OldMatches_empty.
    rewrite Forall_forall in Hwt. now apply Hwt.
  - intros Hb. rewrite searchNotes_term by assumption.
    destruct (filterM_Selection (toLowerCase query) (notes st) Hwt)
      as [l' [Hl' Hsel']].
    exists l'. split; [exact Hl' |].
    apply (Selection_weaker _ _ _ _ _ (OldMatches_Matches _) Hsel Hsel').
Qed.

Lemma old_filter_selects_witness :
  Forall (fun n => has_text n = true) (notes firstRun)
  /\ exists l,
       @OldSidebar.filteredNotes asciiRuntime (lit "WELCOME")
         (notes firstRun) = Ok l.
Proof.
  assert (H : Forall (fun n => has_text n = true) (notes firstRun))
    by (repeat constructor).
  split; [exact H |].
  destruct (old_filter_selects asciiRuntime (lit "WELCOME") firstRun H)
    as [l [Hl _]].
  now exists l.
Defined.

(* ================================================================== *)
(** ** Saving from the editor *)
(* ================================================================== *)

Section EditorSave.
Context {rt : JsRuntime}.

Lemma autoCategorized_keeps (noteData : Note.t) :
  Note.id (autoCategorized noteData) = Note.id noteData
  /\ Note.createdAt (autoCategorized noteData) = Note.createdAt noteData.
Proof.
  unfold autoCategorized.
  destruct (Note.content noteData) as [[| c r] |]; try (now split).
  destruct (negb (truthy (Note.folder noteData))); now split.
Qed.

Lemma autoCategorized_with_folder (noteData : Note.t) (f : jsstring) :
  Note.folder noteData = Some f -> f <> [] ->
  autoCategorized noteData = noteData.
Proof.
  intros Hf Hne. unfold autoCategorized.
  rewrite Hf, (truthy_nonempty f Hne).
  now destruct (Note.content noteData) as [[| c r] |].
Qed.

End EditorSave.

(** X22.  Saving from the editor a note that has an identifier: what the
    editor sends carries no creation time, so the note that becomes
    active, and that replaces every note of the collection with that
    identifier, has the identifier, the clock reading as its update time
    and no creation time; its timestamps are not in order.  The other
    notes are kept as they are. *)
Theorem editor_save_existing
  (rt : JsRuntime) (now stamp : Z) (p : Page) (n : Note.t)
  (title content : jsstring) (tags : list jsstring)
  (selectedFolder summary : jsstring) (actionItems : list jsstring) :
  truthy (Note.id n) = true ->
  let p' :=
    handleSaveNote now stamp
      (Editor.handleSave (Some n) title content tags selectedFolder summary
         actionItems) p in
  exists u,
    activeNote p' = Some u
    /\ Note.id u = Note.id n
    /\ Note.updatedAt u = Some (Time now)
    /\ Note.createdAt u = None
    /\ ~ stamped_in_order u
    /\ Forall2
         (fun m m' =>
            (Note.id m = Note.id n /\ m' = u)
            \/ (Note.id m <> Note.id n /\ m' = m))
         (notes (hook p)) (notes (hook p')).
Proof.
  intros Hid p'. subst p'. unfold handleSaveNote. cbn [activeNote hook].
  set (nd := autoCategorized
               (Editor.handleSave (Some n) title content tags
                  selectedFolder summary actionItems)).
  destruct (autoCategorized_keeps
              (Editor.handleSave (Some n) title content tags
                 selectedFolder summary actionItems)) as [Hi Hc].
  fold nd in Hi, Hc. cbn [Editor.handleSave Note.id Note.createdAt] in Hi, Hc.
  assert (Ht : truthy (Note.id nd) = true) by now rewrite Hi.
  rewrite saveNote_update_eq by assumption. cbn [fst snd].
  rewrite notes_setNotes.
  exists (updatedNote now nd).
  split; [reflexivity |]. split; [exact Hi |]. split; [reflexivity |].
  split; [exact Hc |]. split.
  - unfold stamped_in_order, updatedNote.
    cbn [Note.with_stamp Note.updatedAt Note.createdAt].
    rewrite Hc. discriminate.
  - induction (notes (hook p)) as [| m l IH]; simpl; constructor;
      [| exact IH].
    rewrite Hi.
    destruct (strict_eq (Note.id m) (Note.id n)) eqn:E.
    + left. split; [now apply strict_eq_true | reflexivity].
    + right. split; [now apply strict_eq_false | reflexivity].
Qed.

Lemma editor_save_existing_witness :
  truthy (Note.id (welcomeNote 1000 1000)) = true
  /\ exists u,
       activeNote
         (@handleSaveNote asciiRuntime 2000 2000
            (Editor.handleSave (Some (welcomeNote 1000 1000))
               (lit "Welcome") (lit "hello world") [] (lit "quick-notes")
               [] [])
            firstPage) = Some u
       /\ Note.createdAt u = None.
Proof.
  split; [reflexivity |].
  destruct (editor_save_existing asciiRuntime 2000 2000 firstPage
              (welcomeNote 1000 1000) (lit "Welcome") (lit "hello world")
              [] (lit "quick-notes") [] [] eq_refl)
    as [u (Ha & _ & _ & Hc & _)].
  exists u. split; [exact Ha | exact Hc].
Defined.

(** X23.  Saving a new note from the editor with a folder selected: the
    note is created in the selected folder ([categorizeNote] is not
    consulted), with the title typed, or "Untitled Note" when the title
    box is empty, with the body, the tags and the word count of the body,
    with both timestamps at the clock reading of the save, and with the
    print of [Date.now()] as identifier; it is put in front of the
    collection and becomes the active note. *)
Theorem editor_save_new
  (rt : JsRuntime) (now stamp : Z) (p : Page)
  (title content : jsstring) (tags : list jsstring)
  (selectedFolder summary : jsstring) (actionItems : list jsstring) :
  selectedFolder <> [] ->
  let p' :=
    handleSaveNote now stamp
      (Editor.handleSave None title content tags selectedFolder summary
         actionItems) p in
  exists u,
    activeNote p' = Some u
    /\ notes (hook p') = u :: notes (hook p)
    /\ Note.id u = Some (number_toString stamp)
    /\ Note.folder u = Some selectedFolder
    /\ Note.title u
       = Some (match title with
               | [] => lit "Untitled Note"
               | _ :: _ => title
               end)
    /\ Note.content u = Some content
    /\ Note.tags u = Some tags
    /\ Note.wordCount u = Some (countWords content)
    /\ Note.createdAt u = Some (Time now)
    /\ Note.updatedAt u = Some (Time now).
Proof.
  intros Hne p'. subst p'. unfold handleSaveNote. cbn [activeNote hook].
  rewrite (autoCategorized_with_folder
             (Editor.handleSave None title content tags selectedFolder
                summary actionItems) selectedFolder eq_refl Hne).
  rewrite saveNote_new_eq by reflexivity. cbn [fst snd].
  rewrite notes_setNotes.
  eexists. split; [reflexivity |]. split; [reflexivity |].
  cbn [newNote Editor.handleSave Note.id Note.folder Note.title
         Note.content Note.tags Note.wordCount Note.createdAt
         Note.updatedAt].
  split; [reflexivity |].
  split; [now rewrite or_str_nonempty |].
  split; [now destruct title |].
  split; [now destruct content |].
  split; [reflexivity |].
  split; [now destruct content |].
  split; reflexivity.
Qed.

Lemma editor_save_new_witness :
  lit "quick-notes" <> []
  /\ exists u,
       activeNote
         (@handleSaveNote asciiRuntime 2000 2000
            (Editor.handleSave None [] (lit "hello world") []
               (lit "quick-notes") [] [])
            firstPage) = Some u
       /\ Note.title u = Some (lit "Untitled Note").
Proof.
  assert (H : lit "quick-notes" <> []) by discriminate.
  split; [exact H |].
  destruct (editor_save_new asciiRuntime 2000 2000 firstPage []
              (lit "hello world") [] (lit "quick-notes") [] [] H)
    as [u (Ha & _ & _ & _ & Ht & _)].
  exists u. split; [exact Ha | exact Ht].
Defined.

(* ================================================================== *)
(** ** The editor: summaries *)
(* ================================================================== *)

Lemma splitRuns_pieces (isSep : N -> bool) (P : N -> Prop)
  (s cur : jsstring) (sep : bool) :
  Forall P cur ->
  Forall (fun c => isSep c = false -> P c) s ->
  Forall (Forall P) (splitRuns isSep sep cur s).
Proof.
  revert cur sep. induction s as [| c s IH]; intros cur sep Hcur Hs; simpl.
  - now repeat constructor.
  - inversion Hs as [| ? ? Hc Hs']; subst.
    destruct (isSep c) eqn:E.
    + destruct sep.
      * now apply IH.
      * constructor; [assumption |]. apply IH; [constructor | assumption].
    + apply IH; [| assumption].
      apply Forall_app. split; [assumption |].
      constructor; [now apply Hc | constructor].
Qed.

Lemma trimStart_incl (s : jsstring) (c : N) :
  In c (trimStart s) -> In c s.
Proof.
  induction s as [| d s IH]; simpl; [tauto |].
  destruct (isWhiteSpace d); [right; now apply IH | tauto].
Qed.

Lemma trim_incl (s : jsstring) (c : N) : In c (trim s) -> In c s.
Proof.
  unfold trim. intros H.
  apply in_rev, trimStart_incl, in_rev in H. now apply trimStart_incl.
Qed.

Lemma trim_Forall (P : N -> Prop) (s : jsstring) :
  Forall P s -> Forall P (trim s).
Proof.
  rewrite !Forall_forall. intros H c Hc. now apply H, trim_incl.
Qed.

Lemma Forall_firstn {A} (P : A -> Prop) (k : nat) (l : list A) :
  Forall P l -> Forall P (firstn k l).
Proof.
  intros H. revert k.
  induction H as [| x l Hx _ IH]; intros [| k]; simpl; constructor;
    [assumption | apply IH].
Qed.

Lemma Forall_filter {A} (P : A -> Prop) (f : A -> bool) (l : list A) :
  Forall P l -> Forall P (filter f l).
Proof.
  rewrite !Forall_forall. intros H x Hx. apply H.
  now apply filter_In in Hx.
Qed.

(** In a join by ". " of pieces without sentence punctuation, the
    periods are those of the separators. *)
Lemma join_periods (l : list jsstring) :
  Forall (Forall (fun c => isSentenceEnd c = false)) l ->
  count_occ N.eq_dec (join (lit ". ") l) 46%N = pred (List.length l)
  /\ Forall (fun c => c <> 33%N /\ c <> 63%N) (join (lit ". ") l).
Proof.
  assert (Hpiece : forall x : jsstring,
             Forall (fun c => isSentenceEnd c = false) x ->
             count_occ N.eq_dec x 46%N = 0%nat
             /\ Forall (fun c => c <> 33%N /\ c <> 63%N) x).
  { intros x Hx. split.
    - apply count_occ_not_In. intros Hin.
      rewrite Forall_forall in Hx. specialize (Hx _ Hin). discriminate.
    - apply Forall_forall. intros c Hc.
      rewrite Forall_forall in Hx. specialize (Hx _ Hc).
      split; intros ->; discriminate. }
  induction 1 as [| x l Hx Hl IH].
  - split; [reflexivity | constructor].
  - destruct (Hpiece x Hx) as [Hx0 Hx1].
    destruct l as [| y l]; [now split |].
    destruct IH as [IHc IHf].
    change (join (lit ". ") (x :: y :: l))
      with (x ++ lit ". " ++ join (lit ". ") (y :: l)).
    split.
    + rewrite !count_occ_app, Hx0, IHc. reflexivity.
    + apply Forall_app. split; [assumption |].
      apply Forall_app. split; [| assumption].
      repeat constructor; discriminate.
Qed.

(** X24.  The summary [handleSummarize] makes always ends with a period,
    holds between one and three periods, and never an exclamation or a
    question mark: the sentences it takes are cut at every run of such
    marks.  For a body without any text outside marks and white space the
    summary is the single period. *)
Theorem generatedSummary_punctuation (content : jsstring) :
  (exists keyPoints, generatedSummary content = keyPoints ++ lit ".")
  /\ (1 <= count_occ N.eq_dec (generatedSummary content) 46%N <= 3)%nat
  /\ Forall (fun c => c <> 33%N /\ c <> 63%N) (generatedSummary content)
  /\ (Forall (fun c => isSentenceEnd c = true \/ isWhiteSpace c = true)
        content ->
      generatedSummary content = lit ".").
Proof.
  unfold generatedSummary.
  set (pieces := splitRuns isSentenceEnd false [] content).
  set (sentences := filter (fun s => (0 <? List.length (trim s))%nat) pieces).
  set (points := map trim (firstn 3 sentences)).
  assert (Hclean : Forall (Forall (fun c => isSentenceEnd c = false)) points).
  { subst points. apply Forall_map.
    apply Forall_firstn, Forall_filter.
    assert (H : Forall (Forall (fun c => isSentenceEnd c = false)) pieces).
    { apply splitRuns_pieces; [constructor |].
      apply Forall_forall. tauto. }
    revert H. apply Forall_impl. intros s. apply trim_Forall. }
  assert (Hlen : (List.length points <= 3)%nat).
  { subst points. rewrite length_map, length_firstn. lia. }
  destruct (join_periods points Hclean) as [Hc Hf].
  split; [now eexists |]. split; [| split].
  - rewrite count_occ_app, Hc.
    replace (count_occ N.eq_dec (lit ".") 46%N) with 1%nat
      by (vm_compute; reflexivity).
    lia.
  - apply Forall_app. split; [assumption |].
    repeat constructor; discriminate.
  - intros Hblank.
    assert (Hp : Forall blank pieces).
    { apply splitRuns_pieces; [constructor |].
      revert Hblank. apply Forall_impl. intros c [H | H] E; congruence. }
    assert (Hs : sentences = []).
    { subst sentences. clear -Hp.
      induction Hp as [| s l Hs _ IH]; simpl; [reflexivity |].
      now rewrite (proj2 (trim_nil s) Hs). }
    subst points. rewrite Hs. reflexivity.
Qed.

(* ================================================================== *)
(** ** The editor: polishing *)
(* ================================================================== *)

Lemma lower_not_space (c : N) :
  isLowerLetter c = true -> isWhiteSpace c = false.
Proof.
  unfold isLowerLetter, isWhiteSpace.
  rewrite andb_true_iff, !N.leb_le. intros [H1 H2].
  rewrite !orb_false_iff, !andb_false_iff, !N.eqb_neq, !N.leb_gt. lia.
Qed.

Lemma mark_not_space (c : N) :
  isSentenceEnd c = true -> isWhiteSpace c = false.
Proof.
  unfold isSentenceEnd. rewrite !orb_true_iff, !N.eqb_eq.
  intros [[-> | ->] | ->]; reflexivity.
Qed.

Lemma space_not_mark (c : N) :
  isWhiteSpace c = true -> isSentenceEnd c = false.
Proof.
  intros H. destruct (isSentenceEnd c) eqn:E; [| reflexivity].
  apply mark_not_space in E. congruence.
Qed.

Lemma tidy_weaken (b : bool) (s : jsstring) :
  tidy b s = true -> tidy false s = true.
Proof.
  destruct s as [| c s]; simpl; [reflexivity |].
  destruct (isWhiteSpace c); [| tauto].
  rewrite !andb_true_iff. tauto.
Qed.

Lemma tidy_app_char (c : N) (a r : jsstring) (f : bool) :
  isWhiteSpace c = false ->
  tidy f (a ++ c :: r) = tidy f (a ++ [c]) && tidy false r.
Proof.
  intros Hc. revert f. induction a as [| x a IH]; intros f; simpl.
  - now rewrite Hc.
  - destruct (isWhiteSpace x); rewrite IH; [| reflexivity].
    now rewrite !andb_assoc.
Qed.

Lemma tidy_prefix (a b : jsstring) (f : bool) :
  tidy f (a ++ b) = true -> tidy f a = true.
Proof.
  revert f. induction a as [| x a IH]; intros f; simpl; [reflexivity |].
  destruct (isWhiteSpace x); [| apply IH].
  rewrite !andb_true_iff. intros [H1 H2]. split; [assumption |].
  now apply IH.
Qed.

Lemma collapseSpaces_tidy (s : jsstring) (b : bool) :
  tidy b (collapseSpaces b s) = true.
Proof.
  revert b. induction s as [| c s IH]; intros b; simpl; [reflexivity |].
  destruct (isWhiteSpace c) eqn:Hc.
  - destruct b; [apply IH |]. simpl. apply IH.
  - simpl. rewrite Hc. apply IH.
Qed.

Lemma spaceAfterMark_tidy (s : jsstring) :
  (forall ws, tidy false (ws ++ s) = true ->
              tidy false (spaceAfterMark (Some ws) s) = true)
  /\ (forall f, tidy f s = true -> tidy f (spaceAfterMark None s) = true).
Proof.
  induction s as [| c s [IH1 IH2]]; split.
  - intros ws H. simpl. now rewrite app_nil_r in H.
  - reflexivity.
  - intros ws H. simpl. destruct (isWhiteSpace c) eqn:Hc.
    + apply IH1. now rewrite <- app_assoc.
    + rewrite (tidy_app_char c ws s false Hc) in H.
      apply andb_true_iff in H. destruct H as [Hws Hs].
      destruct (isLowerLetter c).
      * simpl. rewrite Hc. now apply IH2.
      * rewrite (tidy_app_char c ws _ false Hc), Hws. simpl.
        destruct (isSentenceEnd c); [now apply IH1 | now apply IH2].
  - intros f H. simpl in *. destruct (isWhiteSpace c) eqn:Hc.
    + rewrite (space_not_mark c Hc).
      rewrite !andb_true_iff in *. destruct H as [H1 H2].
      split; [assumption | now apply IH2].
    + destruct (isSentenceEnd c); [now apply IH1 | now apply IH2].
Qed.

Lemma capitalI_tidy (s : jsstring) (pw f : bool) :
  tidy f (capitalI pw s) = tidy f s.
Proof.
  revert pw f. induction s as [| c s IH]; intros pw f; simpl;
    [reflexivity |].
  destruct ((c =? 105)%N && negb pw
            && negb match s with d :: _ => isWordChar d | [] => false end)
    eqn:E.
  - rewrite !andb_true_iff, N.eqb_eq in E. destruct E as [[-> _] _].
    simpl. apply IH.
  - now rewrite !IH.
Qed.

Lemma trimStart_split (s : jsstring) :
  exists pre, s = pre ++ trimStart s.
Proof.
  induction s as [| c s [pre IH]]; simpl.
  - now exists [].
  - destruct (isWhiteSpace c); [| now exists []].
    exists (c :: pre). simpl. now f_equal.
Qed.

Lemma trim_split (s : jsstring) :
  exists pre post, s = pre ++ trim s ++ post.
Proof.
  unfold trim. destruct (trimStart_split s) as [pre Hpre].
  destruct (trimStart_split (rev (trimStart s))) as [pre2 Hpre2].
  exists pre, (rev pre2).
  rewrite <- rev_app_distr, <- Hpre2, rev_involutive. exact Hpre.
Qed.

Lemma trim_trimmed (s : jsstring) : trimmed (trim s).
Proof.
  unfold trimmed, trim.
  destruct (trimStart (rev (trimStart s))) as [| z x] eqn:Ex;
    [now left | right].
  pose proof (trimStart_head _ _ _ Ex) as Hz.
  destruct (trimStart_split (rev (trimStart s))) as [pre2 Hpre2].
  rewrite Ex in Hpre2.
  apply (f_equal (@rev N)) in Hpre2. rewrite rev_involutive in Hpre2.
  rewrite rev_app_distr in Hpre2. simpl in Hpre2 |- *.
  destruct (rev x) as [| a m] eqn:Er.
  - exists z, [], z. split; [now left | now split].
  - exists a, m, z. split; [now right |]. split; [| assumption].
    simpl in Hpre2.
    now apply (trimStart_head s a ((m ++ [z]) ++ rev pre2)).
Qed.

Lemma trim_tidy (s : jsstring) (f : bool) :
  tidy f s = true -> tidy false (trim s) = true.
Proof.
  intros H. destruct (trim_split s) as [pre [post Hs]].
  destruct (trim_trimmed s) as [E | [a [m [z [E [Ha _]]]]]];
    [now rewrite E |].
  assert (Hcons : exists r, trim s = a :: r).
  { destruct E as [E | E]; rewrite E; eauto. }
  destruct Hcons as [r Hr]. rewrite Hr in Hs |- *.
  rewrite Hs in H. simpl in H.
  rewrite (tidy_app_char a pre _ f Ha) in H.
  apply andb_true_iff in H. destruct H as [_ H].
  apply tidy_prefix in H. simpl. now rewrite Ha.
Qed.

Lemma collapseSpaces_blank (s : jsstring) (b : bool) :
  blank s -> blank (collapseSpaces b s).
Proof.
  intros H. revert b. induction H as [| c s Hc _ IH]; intros b; simpl;
    [constructor |].
  rewrite Hc. destruct b; [apply IH |]. constructor; [reflexivity | apply IH].
Qed.

Lemma spaceAfterMark_blank (s : jsstring) :
  blank s -> spaceAfterMark None s = s.
Proof.
  induction 1 as [| c s Hc _ IH]; simpl; [reflexivity |].
  now rewrite (space_not_mark c Hc), IH.
Qed.

Lemma capitalI_blank (s : jsstring) (pw : bool) :
  blank s -> blank (capitalI pw s).
Proof.
  intros H. revert pw. induction H as [| c s Hc _ IH]; intros pw; simpl;
    [constructor |].
  constructor; [| apply IH].
  destruct (N.eqb_spec c 105) as [-> | _]; [discriminate Hc | exact Hc].
Qed.

(** X25.  The text [handlePolish] produces has tidy white space: every
    white-space character in it is a single space between two other
    characters, and there is none at either end.  A body made of white
    space only is polished to the empty text.  The earlier editor's
    polish, which leaves the letter i alone, does the same. *)
Theorem polishedContent_tidy (content : jsstring) :
  tidy false (polishedContent content) = true
  /\ trimmed (polishedContent content)
  /\ (blank content -> polishedContent content = [])
  /\ tidy false (polishedContentOld content) = true
  /\ trimmed (polishedContentOld content)
  /\ (blank content -> polishedContentOld content = []).
Proof.
  assert (HB : tidy false
                 (spaceAfterMark None (collapseSpaces false content))
               = true).
  { apply (proj2 (spaceAfterMark_tidy _)). apply collapseSpaces_tidy. }
  unfold polishedContent, polishedContentOld.
  split; [| split; [apply trim_trimmed | split; [| split; [| split]]]].
  - apply (trim_tidy _ false). now rewrite capitalI_tidy.
  - intros Hb. apply trim_nil, capitalI_blank.
    rewrite spaceAfterMark_blank; now apply collapseSpaces_blank.
  - now apply (trim_tidy _ false).
  - apply trim_trimmed.
  - intros Hb. apply trim_nil.
    rewrite spaceAfterMark_blank; now apply collapseSpaces_blank.
Qed.

(* ================================================================== *)
(** ** Searching after a partial save *)
(* ================================================================== *)

Lemma afterEdit_reachable : reachable 1000 afterEdit.
Proof. apply reach_call. apply reach_load. Qed.

(** After [saveNote({ id: "1", content: "hello world" })] on a first run
    the only note has no title.  Its body contains "hello", and yet the
    search for "hello" does not return it: the call throws on reading the
    title. *)
Lemma searchNotes_partial_note_throws :
  reachable 1000 afterEdit
  /\ (exists n,
        notes afterEdit = [n]
        /\ Note.title n = None
        /\ @Matches asciiRuntime (@toLowerCase asciiRuntime (lit "hello")) n)
  /\ @searchNotes asciiRuntime (lit "hello") afterEdit = TypeError.
Proof.
  split; [apply afterEdit_reachable |]. split; [| reflexivity].
  exists (updatedNote 2000 editBody).
  split; [reflexivity |]. split; [reflexivity |].
  right; left. exists (lit "hello world"). split; [reflexivity |].
  now exists [], (lit " world").
Qed.

(** In the same state the search for "world" returns no list at all, so
    no subsequence of the collection. *)
Lemma searchNotes_returns_no_sublist :
  reachable 1000 afterEdit
  /\ ~ Forall (fun n => has_text n = true) (notes afterEdit)
  /\ ~ exists l,
        @searchNotes asciiRuntime (lit "world") afterEdit = Ok l
        /\ Subseq l (notes afterEdit).
Proof.
  split; [apply afterEdit_reachable |]. split.
  - intros H. inversion H as [| n l Hn _]. discriminate Hn.
  - intros [l [H _]]. discriminate H.
Qed.
